(** * happybox: the exiftool session and its metadata record

    A shallow embedding of [exiftool.go]: the framing function of the
    stay-open session ([splitReadyToken]), the request cycle
    ([ReadMetadata]) over a model of [bufio.Scanner], and the metadata
    record with its derived accessors.

    Conventions.
    - A Go [string] is a Rocq [string] (a sequence of 8-bit characters);
      a Go [[]byte] is a [list byte]; a nil slice returned as "no token"
      is [None].
    - A Go [int] is a [Z]; the one addition the source performs on ints
      wraps around at 64 bits ([int_add]).
    - A Go [error] is a value of [error]; a nil error is [None].
    - A function that can panic returns a [result] with a [Panic] case. *)

From Stdlib Require Import ZArith Lia Strings.Ascii Strings.String Strings.Byte.
From stdpp Require Import base option list strings gmap.

Local Open Scope string_scope.
Local Open Scope list_scope.
Local Open Scope Z_scope.

(** ** Go basics *)

Definition int := Z.

Definition maxInt : Z := 2 ^ 63 - 1.
Definition minInt : Z := - 2 ^ 63.

(** Two's-complement wrap-around of a 64-bit signed integer. *)
Definition int_wrap (z : Z) : int := (z + 2 ^ 63) mod 2 ^ 64 - 2 ^ 63.

Definition int_add (a b : int) : int := int_wrap (a + b).

(** [len] of a slice. *)
Definition len {A} (s : list A) : int := Z.of_nat (length s).

#[global] Instance byte_eq_dec : EqDecision byte := Byte.byte_eq_dec.

(** [[]byte(s)] and [string(b)]. *)
Definition bytes_of (s : string) : list byte := list_byte_of_string s.
Definition string_of (b : list byte) : string := string_of_list_byte b.

Definition LF : string := String "010" EmptyString.
Definition CR : string := String "013" EmptyString.

(** Errors.  [ZeroDateError] and [ExifCreationDateNotFoundError] are the two
    package-level error values of the source; [Errorf msg] is the value of a
    [fmt.Errorf] call without a [%w] verb whose formatted text is [msg];
    [Wrapf msg cause] is the value of a [fmt.Errorf] call whose [%w] verb
    wraps [cause]; [LibError] is an error value made by a library
    (encoding/json, io, time, bufio). *)
Inductive error : Type :=
| ZeroDateError
| ExifCreationDateNotFoundError
| Errorf (msg : string)
| Wrapf (msg : string) (cause : error)
| LibError (msg : string).

(** [err.Error()] *)
Definition Error (e : error) : string :=
  match e with
  | ZeroDateError => "zero-date string"
  | ExifCreationDateNotFoundError => "cannot find a suitable exif creation date"
  | Errorf msg => msg
  | Wrapf msg _ => msg
  | LibError msg => msg
  end.

Fixpoint error_eqb (a b : error) : bool :=
  match a, b with
  | ZeroDateError, ZeroDateError => true
  | ExifCreationDateNotFoundError, ExifCreationDateNotFoundError => true
  | Errorf m1, Errorf m2 => String.eqb m1 m2
  | Wrapf m1 c1, Wrapf m2 c2 => String.eqb m1 m2 && error_eqb c1 c2
  | LibError m1, LibError m2 => String.eqb m1 m2
  | _, _ => false
  end.

(** [errors.Is(err, target)]: [err] or an error it wraps is [target]. *)
Fixpoint errors_Is_chain (e target : error) : bool :=
  error_eqb e target ||
  match e with
  | Wrapf _ cause => errors_Is_chain cause target
  | _ => false
  end.

Definition errors_Is (err : option error) (target : error) : bool :=
  match err with
  | None => false
  | Some e => errors_Is_chain e target
  end.

(** What a call leaves behind: it returned nil, returned an error, or
    panicked. *)
Inductive result : Type :=
| Ok
| Err (e : error)
| Panic (msg : string).

(** ** bytes.Index *)

(** [bytes.HasPrefix(s, prefix)] *)
Fixpoint bytes_HasPrefix (s prefix : list byte) {struct prefix} : bool :=
  match prefix, s with
  | [], _ => true
  | p :: prefix', c :: s' => if decide (c = p) then bytes_HasPrefix s' prefix' else false
  | _ :: _, [] => false
  end.

(** The search loop of [bytes.Index], started at offset [i] of the slice. *)
Fixpoint index_from (i : int) (s sep : list byte) : int :=
  if bytes_HasPrefix s sep then i
  else match s with
       | [] => -1
       | _ :: s' => index_from (i + 1) s' sep
       end.

(** [bytes.Index(s, sep)]: the index of the first instance of [sep] in [s],
    or -1. *)
Definition bytes_Index (s sep : list byte) : int := index_from 0 s sep.

(** ** The session *)

Record ExiftoolConfig : Type := {
  executable : string;
  bufferOpenArgs : list string;
  readyToken : list byte;
  readyTokenLength : int;
  bufferCloseArgs : list string;
  dataExtractArgs : list string;
  executeArg : string
}.

(** [UseDefaults]; [goos] is [runtime.GOOS]. *)
Definition UseDefaults (goos : string) : ExiftoolConfig :=
  let readyToken :=
    if String.eqb goos "windows"
    then bytes_of ("{ready}" +:+ CR +:+ LF)
    else bytes_of ("{ready}" +:+ LF) in
  {| executable := "exiftool";
     bufferOpenArgs := ["-stay_open"; "True"; "-@"; "-"; "-common_args"];
     readyToken := readyToken;
     readyTokenLength := len readyToken;
     bufferCloseArgs := ["-stay_open"; "False"; "-execute"];
     dataExtractArgs :=
       ["-json";
        "-api"; "largefilesupport=1";
        "-extractEmbedded";
        "-x"; "HistoryChanged";
        "-x"; "HistoryWhen";
        "-x"; "HistorySoftwareAgent";
        "-x"; "HistoryInstanceID";
        "-x"; "HistoryAction";
        "-x"; "ThumbnailImage"];
     executeArg := "-execute" |}.

(** The error of the framing function. *)
Definition noFinalToken : error := Errorf "no final token found".

(** [splitReadyToken(data, atEOF)]: (advance, token, err). *)
Definition splitReadyToken (config : ExiftoolConfig) (data : list byte) (atEOF : bool)
  : int * option (list byte) * option error :=
  let idx := bytes_Index data (readyToken config) in
  if idx =? -1 then
    if atEOF && (0 <? len data)
    then (0, Some data, Some noFinalToken)
    else (0, None, None)
  else (int_add idx (readyTokenLength config), Some (take (Z.to_nat idx) data), None).

(** ** time.Time *)

(** A [time.Time] without a monotonic clock reading: an instant, as seconds
    and nanoseconds since January 1, 1970 UTC, and the offset in seconds east
    of UTC of the location the time is presented in. *)
Record Time : Type := {
  unixSec : Z;
  nsec : Z;
  zoneOffset : Z
}.

(** [time.Time{}]: January 1, year 1, 00:00:00 UTC. *)
Definition zeroTime : Time :=
  {| unixSec := -62135596800; nsec := 0; zoneOffset := 0 |}.

(** [t.Before(u)] *)
Definition Before (t u : Time) : bool :=
  (unixSec t <? unixSec u) || ((unixSec t =? unixSec u) && (nsec t <? nsec u)).

(** The year of the proleptic Gregorian calendar in which the day number
    [days] (days since January 1, 1970) falls. *)
Definition civil_year (days : Z) : Z :=
  let z := days + 719468 in
  let era := z / 146097 in
  let doe := z - era * 146097 in
  let yoe := (doe - doe / 1460 + doe / 36524 - doe / 146096) / 365 in
  let doy := doe - (365 * yoe + yoe / 4 - yoe / 100) in
  let mp := (5 * doy + 2) / 153 in
  let m := if mp <? 10 then mp + 3 else mp - 9 in
  yoe + era * 400 + (if m <=? 2 then 1 else 0).

(** [t.Year()]: the year in the time's own location. *)
Definition Year (t : Time) : Z := civil_year ((unixSec t + zoneOffset t) / 86400).

(** ** strings *)

(** [strings.HasPrefix(s, prefix)], which also gives what follows the prefix. *)
Fixpoint cutPrefix (s prefix : string) {struct prefix} : option string :=
  match prefix, s with
  | EmptyString, _ => Some s
  | String p prefix', String c s' =>
      if Ascii.eqb c p then cutPrefix s' prefix' else None
  | String _ _, EmptyString => None
  end.

Definition strings_HasPrefix (s prefix : string) : bool :=
  match cutPrefix s prefix with Some _ => true | None => false end.

(** The copy loop of [strings.Replace]: [skip] counts the bytes of an
    occurrence of [old] that are still to be passed over. *)
Fixpoint replaceFrom (skip : nat) (s old new : string) : string :=
  match s with
  | EmptyString => EmptyString
  | String c s' =>
      match skip with
      | S k => replaceFrom k s' old new
      | O =>
          if strings_HasPrefix s old
          then new +:+ replaceFrom (String.length old - 1) s' old new
          else String c (replaceFrom 0 s' old new)
      end
  end.

(** [strings.ReplaceAll(s, old, new)] for a non-empty [old], as at both call
    sites of the source: the non-overlapping instances of [old], found from
    the left, are replaced by [new].  (With an empty [old] Go inserts [new]
    at every rune boundary; that case is outside this model and yields [s].) *)
Definition strings_ReplaceAll (s old new : string) : string :=
  match old with
  | EmptyString => s
  | String _ _ => replaceFrom 0 s old new
  end.

(** The byte with the given code. *)
Definition chr (n : nat) : ascii := ascii_of_nat n.

(** The string of the bytes with the given codes. *)
Definition ofCodes (codes : list nat) : string :=
  fold_right (fun n s => String (chr n) s) EmptyString codes.

(** The UTF-8 encodings of the code points for which [unicode.IsSpace]
    holds: tab, LF, VT, FF, CR, space, U+0085, U+00A0, U+1680,
    U+2000..U+200A, U+2028, U+2029, U+202F, U+205F and U+3000. *)
Definition spaceRunes : list string :=
  map ofCodes
    [ [9%nat]; [10%nat]; [11%nat]; [12%nat]; [13%nat]; [32%nat];
      [194; 133]%nat; [194; 160]%nat;
      [225; 154; 128]%nat;
      [226; 128; 128]%nat; [226; 128; 129]%nat; [226; 128; 130]%nat;
      [226; 128; 131]%nat; [226; 128; 132]%nat; [226; 128; 133]%nat;
      [226; 128; 134]%nat; [226; 128; 135]%nat; [226; 128; 136]%nat;
      [226; 128; 137]%nat; [226; 128; 138]%nat;
      [226; 128; 168]%nat; [226; 128; 169]%nat; [226; 128; 175]%nat;
      [226; 129; 159]%nat;
      [227; 128; 128]%nat ].

(** What is left of [s] after the first of [prefixes] that it begins with. *)
Fixpoint cutAnyPrefix (prefixes : list string) (s : string) : option string :=
  match prefixes with
  | [] => None
  | p :: ps =>
      match cutPrefix s p with
      | Some rest => Some rest
      | None => cutAnyPrefix ps s
      end
  end.

Fixpoint trimLeftLoop (fuel : nat) (runes : list string) (s : string) : string :=
  match fuel with
  | O => s
  | S fuel' =>
      match cutAnyPrefix runes s with
      | Some rest => trimLeftLoop fuel' runes rest
      | None => s
      end
  end.

Definition reverse_string (s : string) : string :=
  string_of_list_ascii (rev (list_ascii_of_string s)).

(** [strings.TrimLeftFunc(s, unicode.IsSpace)] *)
Definition trimLeftSpace (s : string) : string :=
  trimLeftLoop (String.length s) spaceRunes s.

(** [strings.TrimRightFunc(s, unicode.IsSpace)]: the same loop on the
    reversed string with the reversed encodings. *)
Definition trimRightSpace (s : string) : string :=
  reverse_string
    (trimLeftLoop (String.length s) (map reverse_string spaceRunes) (reverse_string s)).

(** [strings.TrimSpace(s)] *)
Definition strings_TrimSpace (s : string) : string :=
  trimRightSpace (trimLeftSpace s).

(** ** What the source file takes from elsewhere

    [exiftool.go] uses a map type of the same package that it does not
    declare ([KeyValueMap], with its [GetString] method), a helper of the
    same package that detects the layout of a timestamp
    ([NormalizeTimestampStringFormat]), and the standard library's
    [json.Unmarshal], [time.Parse] and [fmt] verbs processing.  They are
    parameters of the development: every statement below holds for every
    choice of them. *)
Class Externals : Type := {
  (** the field map of a record *)
  KeyValueMap : Type;
  (** the nil map: the [DataMap] of [ExifToolMetadata{}] *)
  nilKeyValueMap : KeyValueMap;
  (** [m.GetString(key)] *)
  GetString : KeyValueMap -> string -> string;
  (** [json.Unmarshal(b, &metaMap)] on [metaMap = []KeyValueMap{}]: the
      decoded slice, or the error *)
  json_Unmarshal : list byte -> list KeyValueMap + error;
  (** [NormalizeTimestampStringFormat(val)]: (dateFormat, normalizedDate) *)
  NormalizeTimestampStringFormat : string -> string * string;
  (** [time.Parse(layout, value)] *)
  time_Parse : string -> string -> Time * option error;
  (** [fmt.Sprintf(format)] with no operands *)
  fmt_Sprintf0 : string -> string
}.

(** A computation that prints diagnostic lines and either returns or stops
    the process with an error. *)
Inductive Proc (A : Type) : Type :=
| Returned (printed : list string) (a : A)
| Fatal (printed : list string) (e : error).
Arguments Returned {A} printed a.
Arguments Fatal {A} printed e.

#[global] Instance Proc_ret : MRet Proc := fun A a => Returned [] a.

#[global] Instance Proc_bind : MBind Proc := fun A B k m =>
  match m with
  | Returned out a =>
      match k a with
      | Returned out' b => Returned (out ++ out') b
      | Fatal out' e => Fatal (out ++ out') e
      end
  | Fatal out e => Fatal out e
  end.

(** Modelled from the spec: [PrintLnRed] is a helper of the package that is
    not in the source file; both failure conditions "print the source file
    path as a diagnostic". *)
Definition PrintLnRed (line : string) : Proc unit := Returned [line] tt.

(** Modelled from the spec: [Catch] is a helper of the package that is not in
    the source file; given an error it raises a condition that is "fatal to
    the caller (not recoverable in-process)". *)
Definition Catch (err : option error) : Proc unit :=
  match err with
  | Some e => Fatal [] e
  | None => mret tt
  end.

(** Modelled from the spec: [IsError] is a helper of the package that is not
    in the source file; it holds of "a parse failure", an error that is not
    nil. *)
Definition IsError (err : option error) : bool :=
  match err with Some _ => true | None => false end.

(** Modelled from the spec: [FindEarliestDate] is a helper of the package
    that is not in the source file; "from the successful candidates, select
    the chronologically earliest (ties broken arbitrarily -- selection is by
    minimum timestamp value only)".  The [fallback] stands for an empty
    list. *)
Definition FindEarliestDate (dates : list Time) (fallback : Time) : Time :=
  match dates with
  | [] => fallback
  | first :: rest =>
      foldl (fun earliest date => if Before date earliest then date else earliest)
        first rest
  end.

(** [regexp.MustCompile("(?i)^[1-9]").MatchString(val)] *)
Definition matchesLeadingNonzeroDigit (val : string) : bool :=
  match val with
  | String c _ => (49 <=? Z.of_nat (nat_of_ascii c)) && (Z.of_nat (nat_of_ascii c) <=? 57)
  | EmptyString => false
  end.

(** The candidate fields of [GetEarliestCreationDate], in their order. *)
Definition candidateKeys : list string :=
  ["CreateDate"; "ModifyDate"; "DateTimeOriginal"; "DateTimeDigitized";
   "GPSDateTime"; "FileModifyDate"].

Section MetadataRecord.
Context `{Externals}.

Record ExifToolMetadata : Type := {
  SourceFile : string;
  DataMap : KeyValueMap;
  DataMapJson : string
}.

(** [ExifToolMetadata{}] *)
Definition emptyMetadata : ExifToolMetadata :=
  {| SourceFile := ""; DataMap := nilKeyValueMap; DataMapJson := "" |}.

(** [Get(key)] *)
Definition Get (meta : ExifToolMetadata) (key : string) : string :=
  GetString (DataMap meta) key.

(** [GetTime(key)]: (date, err). *)
Definition GetTime (meta : ExifToolMetadata) (key : string) : Time * option error :=
  let val := Get meta key in
  if String.eqb val "" || negb (matchesLeadingNonzeroDigit val) then
    (zeroTime, Some ZeroDateError)
  else
    let '(dateFormat, normalizedDate) := NormalizeTimestampStringFormat val in
    let '(date, err) := time_Parse dateFormat normalizedDate in
    if IsError err then
      (date,
       Some (Errorf (LF +:+ LF +:+ "parsing time error formatting '" +:+ normalizedDate
                     +:+ "' as '" +:+ dateFormat +:+ "' " +:+ LF
                     +:+ from_option Error "" err)))
    else (date, None).

(** [Parse(jsonBytes)]: the record after the call and how the call ended. *)
Definition Parse (meta : ExifToolMetadata) (jsonBytes : list byte)
  : ExifToolMetadata * result :=
  match json_Unmarshal jsonBytes with
  | inr err =>
      (meta,
       Err (Wrapf ("error during unmarshaling (" +:+ string_of jsonBytes +:+ "): "
                   +:+ Error err +:+ ")") err))
  | inl metaMap =>
      let meta :=
        {| SourceFile := SourceFile meta;
           DataMap := DataMap meta;
           DataMapJson := string_of jsonBytes |} in
      match metaMap with
      | [] => (meta, Panic "runtime error: index out of range [0] with length 0")
      | first :: _ =>
          ({| SourceFile := SourceFile meta;
              DataMap := first;
              DataMapJson := DataMapJson meta |}, Ok)
      end
  end.

(** The loop over the candidate keys: the dates that [GetTime] parsed. *)
Definition collectCandidates (meta : ExifToolMetadata) : list Time :=
  foldl
    (fun candidates key =>
       let '(candidate, err) := GetTime meta key in
       if errors_Is err ZeroDateError then candidates
       else if IsError err then candidates
       else candidates ++ [candidate])
    [] candidateKeys.

(** [GetEarliestCreationDate()]: what is printed, and the date or the fatal
    error. *)
Definition GetEarliestCreationDate (meta : ExifToolMetadata) : Proc Time :=
  let candidates := collectCandidates meta in
  let fallback := zeroTime in
  (if len candidates =? 0 then
     PrintLnRed (SourceFile meta) ;; Catch (Some ExifCreationDateNotFoundError)
   else mret tt) ;;
  let earliest := FindEarliestDate candidates fallback in
  (if Year earliest <=? 1970 then
     PrintLnRed (SourceFile meta) ;; Catch (Some ExifCreationDateNotFoundError)
   else mret tt) ;;
  mret earliest.

(** The loop of [GetMediaDuration] over its candidates. *)
Fixpoint firstDuration (candidates : list string) : string :=
  match candidates with
  | [] => ""
  | val :: rest =>
      let val := strings_ReplaceAll val "(approx)" "" in
      let val := strings_ReplaceAll val " " "" in
      if negb (String.eqb val "") then strings_TrimSpace val
      else firstDuration rest
  end.

(** [GetMediaDuration()] *)
Definition GetMediaDuration (meta : ExifToolMetadata) : string :=
  let candidates :=
    [Get meta "Duration"; Get meta "MediaDuration"; Get meta "TrackDuration"] in
  firstDuration candidates.

(** [GetFullCameraName()] *)
Definition GetFullCameraName (meta : ExifToolMetadata) : string :=
  let str := "" in
  let str := if negb (String.eqb (Get meta "Make") "") then Get meta "Make" else str in
  let str :=
    if negb (String.eqb (Get meta "Model") "") && negb (String.eqb (Get meta "Model") str)
    then
      if String.eqb str "" then Get meta "Model"
      else str +:+ " (" +:+ Get meta "Model" +:+ ")"
    else str in
  strings_TrimSpace str.

End MetadataRecord.

(** ** bufio.Scanner

    The scanner of the standard library, over a reader whose future is known:
    the chunks that successive [Read] calls will deliver, and the error
    ([io.EOF] for a clean end) that every [Read] returns once they are
    used up. *)

Definition io_EOF : error := LibError "EOF".
Definition io_ErrNoProgress : error := LibError "multiple Read calls return no data or error".
Definition ErrTooLong : error := LibError "bufio.Scanner: token too long".
Definition ErrNegativeAdvance : error :=
  LibError "bufio.Scanner: SplitFunc returns negative advance count".
Definition ErrAdvanceTooFar : error :=
  LibError "bufio.Scanner: SplitFunc returns advance count beyond input".
Definition ErrFinalToken : error := LibError "final token".

Definition MaxScanTokenSize : int := 64 * 1024.
Definition startBufSize : int := 4096.
Definition maxConsecutiveEmptyReads : nat := 100.

Record Reader : Type := {
  chunks : list (list byte);
  closing : error
}.

(** [r.Read(p)] with [len(p) = space]: (the reader afterwards, the bytes
    read, err). *)
Definition Read (r : Reader) (space : nat) : Reader * list byte * option error :=
  match chunks r with
  | [] => (r, [], Some (closing r))
  | c :: cs =>
      if decide (length c <= space)%nat
      then ({| chunks := cs; closing := closing r |}, c, None)
      else ({| chunks := drop space c :: cs; closing := closing r |}, take space c, None)
  end.

(** The fields of [bufio.Scanner]; [buffered] is [s.buf[s.start:s.end]], so
    that [s.end] is [start + length buffered], and [bufLen] is [len(s.buf)]. *)
Record Scanner : Type := {
  rd : Reader;
  maxTokenSize : int;
  token : option (list byte);
  bufLen : nat;
  start : nat;
  buffered : list byte;
  scanErr : option error;
  empties : nat;
  scanDone : bool
}.

(** [bufio.NewScanner(r)] *)
Definition NewScanner (r : Reader) : Scanner :=
  {| rd := r; maxTokenSize := MaxScanTokenSize; token := None; bufLen := 0;
     start := 0; buffered := []; scanErr := None; empties := 0; scanDone := false |}.

(** [s.Buffer(buf, max)] with [cap(buf) = capacity], before the first scan. *)
Definition Buffer (s : Scanner) (capacity : nat) (max : int) : Scanner :=
  {| rd := rd s; maxTokenSize := max; token := token s; bufLen := capacity;
     start := start s; buffered := buffered s; scanErr := scanErr s;
     empties := empties s; scanDone := scanDone s |}.

(** [s.setErr(err)]: the first error that is not [io.EOF] is kept. *)
Definition setErr (s : Scanner) (e : error) : Scanner :=
  let keep :=
    match scanErr s with
    | None => false
    | Some old => negb (error_eqb old io_EOF)
    end in
  if keep then s
  else {| rd := rd s; maxTokenSize := maxTokenSize s; token := token s;
          bufLen := bufLen s; start := start s; buffered := buffered s;
          scanErr := Some e; empties := empties s; scanDone := scanDone s |}.

(** [s.Err()] *)
Definition Scanner_Err (s : Scanner) : option error :=
  match scanErr s with
  | Some e => if error_eqb e io_EOF then None else Some e
  | None => None
  end.

(** [s.Bytes()] *)
Definition Scanner_Bytes (s : Scanner) : option (list byte) := token s.

(** The inner loop of [Scan] that reads input; [more] is the number of empty
    reads still tolerated after this one. *)
Fixpoint readLoop (more : nat) (s : Scanner) : Scanner :=
  let space := (bufLen s - (start s + length (buffered s)))%nat in
  let '(r', bytes, err) := Read (rd s) space in
  let s :=
    {| rd := r'; maxTokenSize := maxTokenSize s; token := token s;
       bufLen := bufLen s; start := start s; buffered := buffered s ++ bytes;
       scanErr := scanErr s; empties := empties s; scanDone := scanDone s |} in
  match err with
  | Some e => setErr s e
  | None =>
      match bytes with
      | _ :: _ =>
          {| rd := rd s; maxTokenSize := maxTokenSize s; token := token s;
             bufLen := bufLen s; start := start s; buffered := buffered s;
             scanErr := scanErr s; empties := 0%nat; scanDone := scanDone s |}
      | [] =>
          match more with
          | O => setErr s io_ErrNoProgress
          | S more' => readLoop more' s
          end
      end
  end.

Inductive ScanReturn : Type :=
| ScanTrue
| ScanFalse
| ScanPanic (msg : string).

Definition SplitFunc : Type :=
  list byte -> bool -> int * option (list byte) * option error.

(** The first half of a turn of the loop of [Scan]: with bytes in the buffer,
    or at the end of the input, the split function is asked for a token.  The
    call returns ([inl]) or the turn goes on ([inr]). *)
Definition tryToken (split : SplitFunc) (s : Scanner) : ScanReturn * Scanner + Scanner :=
  if negb (Nat.eqb (length (buffered s)) 0) || IsError (scanErr s) then
    let '(advance, tok, err) := split (buffered s) (IsError (scanErr s)) in
    match err with
    | Some e =>
        if error_eqb e ErrFinalToken then
          inl (match tok with Some _ => ScanTrue | None => ScanFalse end,
               {| rd := rd s; maxTokenSize := maxTokenSize s; token := tok;
                  bufLen := bufLen s; start := start s; buffered := buffered s;
                  scanErr := scanErr s; empties := empties s; scanDone := true |})
        else inl (ScanFalse, setErr s e)
    | None =>
        if advance <? 0 then inl (ScanFalse, setErr s ErrNegativeAdvance)
        else if len (buffered s) <? advance then inl (ScanFalse, setErr s ErrAdvanceTooFar)
        else
          let s :=
            {| rd := rd s; maxTokenSize := maxTokenSize s; token := tok;
               bufLen := bufLen s; start := (start s + Z.to_nat advance)%nat;
               buffered := drop (Z.to_nat advance) (buffered s);
               scanErr := scanErr s; empties := empties s; scanDone := scanDone s |} in
          match tok with
          | Some _ =>
              if negb (IsError (scanErr s)) || (0 <? advance) then
                inl (ScanTrue,
                     {| rd := rd s; maxTokenSize := maxTokenSize s; token := token s;
                        bufLen := bufLen s; start := start s; buffered := buffered s;
                        scanErr := scanErr s; empties := 0%nat; scanDone := scanDone s |})
              else
                let s :=
                  {| rd := rd s; maxTokenSize := maxTokenSize s; token := token s;
                     bufLen := bufLen s; start := start s; buffered := buffered s;
                     scanErr := scanErr s; empties := S (empties s);
                     scanDone := scanDone s |} in
                if (maxConsecutiveEmptyReads <? empties s)%nat
                then inl (ScanPanic "bufio.Scan: too many empty tokens without progressing", s)
                else inl (ScanTrue, s)
          | None => inr s
          end
    end
  else inr s.

(** The second half: without a token the scan is over when an error is set;
    otherwise the buffer is made ready (its data moved to the front, its
    size doubled when it is full) and input is read. *)
Definition readMore (s : Scanner) : ScanReturn * Scanner + Scanner :=
  if IsError (scanErr s) then
    inl (ScanFalse,
         {| rd := rd s; maxTokenSize := maxTokenSize s; token := token s;
            bufLen := bufLen s; start := 0%nat; buffered := [];
            scanErr := scanErr s; empties := empties s; scanDone := scanDone s |})
  else
    let s_end := (start s + length (buffered s))%nat in
    let shift :=
      (0 <? start s)%nat
      && (Nat.eqb s_end (bufLen s) || (bufLen s / 2 <? start s)%nat) in
    let start' := if shift then 0%nat else start s in
    let s_end := (start' + length (buffered s))%nat in
    if Nat.eqb s_end (bufLen s) then
      if (maxTokenSize s <=? Z.of_nat (bufLen s)) || (maxInt / 2 <? Z.of_nat (bufLen s))
      then inl (ScanFalse, setErr
             {| rd := rd s; maxTokenSize := maxTokenSize s; token := token s;
                bufLen := bufLen s; start := start'; buffered := buffered s;
                scanErr := scanErr s; empties := empties s; scanDone := scanDone s |}
             ErrTooLong)
      else
        let newSize := Z.of_nat (bufLen s) * 2 in
        let newSize := if newSize =? 0 then startBufSize else newSize in
        let newSize := Z.min newSize (maxTokenSize s) in
        inr (readLoop maxConsecutiveEmptyReads
               {| rd := rd s; maxTokenSize := maxTokenSize s; token := token s;
                  bufLen := Z.to_nat newSize; start := 0%nat; buffered := buffered s;
                  scanErr := scanErr s; empties := empties s; scanDone := scanDone s |})
    else
      inr (readLoop maxConsecutiveEmptyReads
             {| rd := rd s; maxTokenSize := maxTokenSize s; token := token s;
                bufLen := bufLen s; start := start'; buffered := buffered s;
                scanErr := scanErr s; empties := empties s; scanDone := scanDone s |}).

(** One turn of the loop of [Scan]. *)
Definition scanTurn (split : SplitFunc) (s : Scanner) : ScanReturn * Scanner + Scanner :=
  match tryToken split s with
  | inl returned => inl returned
  | inr s => readMore s
  end.

Fixpoint scanLoop (fuel : nat) (split : SplitFunc) (s : Scanner)
  : option (ScanReturn * Scanner) :=
  match fuel with
  | O => None
  | S fuel' =>
      match scanTurn split s with
      | inl returned => Some returned
      | inr s' => scanLoop fuel' split s'
      end
  end.

(** The bytes that the reader has yet to deliver. *)
Definition pendingBytes (r : Reader) : nat :=
  foldr (fun c n => (length c + n)%nat) 0%nat (chunks r).

(** Turns of the loop that are enough for a scan to return: one for every
    byte to come, one to meet the end of the stream and one to return. *)
Definition scanFuel (s : Scanner) : nat := (pendingBytes (rd s) + 2)%nat.

(** [s.Scan()]: what the call returned, and the scanner afterwards.  The
    loop is run for [scanFuel] turns, which are enough ([Scan_returns]). *)
Definition Scan (split : SplitFunc) (s : Scanner) : ScanReturn * Scanner :=
  if scanDone s then (ScanFalse, s)
  else
    match scanLoop (scanFuel s) split s with
    | Some returned => returned
    | None => (ScanFalse, s)
    end.

(** ** The session at run time *)

(** [stdin] holds what has been written to the command channel of the
    subprocess; the merged output stream is the reader of the scanner.  The
    lock is not part of the model: calls are taken one at a time. *)
Record ExiftoolIO : Type := {
  stdin : list string;
  scanMergedOut : Scanner
}.

Record Exiftool : Type := {
  config : ExiftoolConfig;
  io : ExiftoolIO
}.

(** [fmt.Fprintln(w, v)]; a failed write goes unnoticed in the source. *)
Definition Fprintln (w : list string) (v : string) : list string := w ++ [v +:+ LF].

Section Session.
Context `{Externals}.

(** [ReadMetadata(file)]: the session afterwards, the record, and how the
    call ended. *)
Definition ReadMetadata (et : Exiftool) (file : string)
  : Exiftool * ExifToolMetadata * result :=
  let meta := emptyMetadata in
  let meta :=
    {| SourceFile := file; DataMap := DataMap meta; DataMapJson := DataMapJson meta |} in
  let '(meta, first) := Parse meta (bytes_of "{}") in
  match first with
  | Panic msg => (et, meta, Panic msg)
  | _ =>
      let w := foldl Fprintln (stdin (io et)) (dataExtractArgs (config et)) in
      let w := Fprintln w file in
      let w := Fprintln w (executeArg (config et)) in
      let '(scanned, scanner) :=
        Scan (splitReadyToken (config et)) (scanMergedOut (io et)) in
      let et :=
        {| config := config et; io := {| stdin := w; scanMergedOut := scanner |} |} in
      match scanned with
      | ScanPanic msg => (et, meta, Panic msg)
      | ScanFalse =>
          (et, meta, Err (Errorf (fmt_Sprintf0 ("error reading exif data:" +:+ file))))
      | ScanTrue =>
          match Scanner_Err scanner with
          | Some e =>
              (et, meta,
               Err (Wrapf ("error while reading stdMergedOut: " +:+ Error e) e))
          | None =>
              let '(meta, err) :=
                Parse meta (default [] (Scanner_Bytes scanner)) in
              (et, meta, err)
          end
      end
  end.

End Session.

(** ** A choice of the parameters

    One instance of [Externals], on which the functions above can be run: a
    field map over JSON values, a decoder for JSON texts, and the timestamp
    layout that exiftool prints, [2006:01:02 15:04:05]. *)
Module Sample.

#[local] Unset Elimination Schemes.
Inductive JValue : Type :=
| JNull
| JBool (b : bool)
| JNumber (literal : string)
| JString (s : string)
| JArray (elements : list JValue)
| JObject (members : list (string * JValue)).
#[local] Set Elimination Schemes.

Definition isDigit (c : ascii) : bool :=
  (48 <=? Z.of_nat (nat_of_ascii c)) && (Z.of_nat (nat_of_ascii c) <=? 57).

Definition isWhite (c : ascii) : bool :=
  let n := nat_of_ascii c in
  Nat.eqb n 32 || Nat.eqb n 9 || Nat.eqb n 10 || Nat.eqb n 13.

Fixpoint skipWhite (cs : list ascii) : list ascii :=
  match cs with
  | c :: cs' => if isWhite c then skipWhite cs' else cs
  | [] => []
  end.

Fixpoint expect (word cs : list ascii) : option (list ascii) :=
  match word, cs with
  | [], _ => Some cs
  | w :: word', c :: cs' => if Ascii.eqb w c then expect word' cs' else None
  | _ :: _, [] => None
  end.

Fixpoint spanDigits (cs : list ascii) : list ascii * list ascii :=
  match cs with
  | c :: cs' =>
      if isDigit c then let '(ds, rest) := spanDigits cs' in (c :: ds, rest)
      else ([], cs)
  | [] => ([], [])
  end.

(** A JSON number: its literal and what follows it. *)
Definition scanNumber (cs : list ascii) : option (list ascii * list ascii) :=
  let '(sign, cs) :=
    match cs with
    | "-"%char :: cs' => (["-"%char], cs')
    | _ => ([], cs)
    end in
  let '(whole, cs) := spanDigits cs in
  match whole with
  | [] => None
  | "0"%char :: _ :: _ => None
  | _ =>
      let fraction :=
        match cs with
        | "."%char :: cs' =>
            let '(ds, rest) := spanDigits cs' in
            match ds with
            | [] => None
            | _ => Some ("."%char :: ds, rest)
            end
        | _ => Some ([], cs)
        end in
      match fraction with
      | None => None
      | Some (frac, cs) =>
          let exponent :=
            match cs with
            | e :: cs' =>
                if Ascii.eqb e "e" || Ascii.eqb e "E" then
                  let '(esign, cs'') :=
                    match cs' with
                    | s :: rest =>
                        if Ascii.eqb s "+" || Ascii.eqb s "-" then ([s], rest)
                        else ([], cs')
                    | [] => ([], cs')
                    end in
                  let '(ds, rest) := spanDigits cs'' in
                  match ds with
                  | [] => None
                  | _ => Some (e :: esign ++ ds, rest)
                  end
                else Some ([], cs)
            | [] => Some ([], cs)
            end in
          match exponent with
          | None => None
          | Some (ex, cs) => Some (sign ++ whole ++ frac ++ ex, cs)
          end
      end
  end.

Definition hexValue (c : ascii) : option Z :=
  let n := Z.of_nat (nat_of_ascii c) in
  if (48 <=? n) && (n <=? 57) then Some (n - 48)
  else if (65 <=? n) && (n <=? 70) then Some (n - 55)
  else if (97 <=? n) && (n <=? 102) then Some (n - 87)
  else None.

Definition byteChar (z : Z) : ascii := ascii_of_nat (Z.to_nat z).

(** The UTF-8 encoding of a code point of the basic plane. *)
Definition utf8 (cp : Z) : list ascii :=
  if cp <? 128 then [byteChar cp]
  else if cp <? 2048 then [byteChar (192 + cp / 64); byteChar (128 + cp mod 64)]
  else [byteChar (224 + cp / 4096); byteChar (128 + (cp / 64) mod 64);
        byteChar (128 + cp mod 64)].

(** The quotation mark. *)
Definition DQ : ascii := chr 34.

Definition quoted (s : string) : string := String DQ (s +:+ String DQ EmptyString).

(** The characters of a JSON string after its opening quote, up to the
    closing one.  An escape of a surrogate is outside this decoder. *)
Fixpoint scanString (fuel : nat) (cs : list ascii) : option (list ascii * list ascii) :=
  match fuel with
  | O => None
  | S fuel' =>
      let plain (c : ascii) (rest : list ascii) :=
        '(s, rest') ← scanString fuel' rest; Some (c :: s, rest') in
      match cs with
      | [] => None
      | c :: rest =>
          if Ascii.eqb c DQ then Some ([], rest)
          else if Ascii.eqb c "\" then
            match rest with
            | [] => None
            | e :: rest =>
                if Ascii.eqb e DQ then plain DQ rest
                else if Ascii.eqb e "\" then plain "\"%char rest
                else if Ascii.eqb e "/" then plain "/"%char rest
                else if Ascii.eqb e "b" then plain (chr 8) rest
                else if Ascii.eqb e "f" then plain (chr 12) rest
                else if Ascii.eqb e "n" then plain (chr 10) rest
                else if Ascii.eqb e "r" then plain (chr 13) rest
                else if Ascii.eqb e "t" then plain (chr 9) rest
                else if Ascii.eqb e "u" then
                  match rest with
                  | h1 :: h2 :: h3 :: h4 :: rest' =>
                      match hexValue h1, hexValue h2, hexValue h3, hexValue h4 with
                      | Some a, Some b, Some c, Some d =>
                          let cp := ((a * 16 + b) * 16 + c) * 16 + d in
                          if (55296 <=? cp) && (cp <=? 57343) then None
                          else
                            '(s, rest'') ← scanString fuel' rest';
                            Some (utf8 cp ++ s, rest'')
                      | _, _, _, _ => None
                      end
                  | _ => None
                  end
                else None
            end
          else if (nat_of_ascii c <? 32)%nat then None
          else plain c rest
      end
  end.

(** A JSON value at the head of [cs], after white space, and what follows
    it; [None] for a text that is not JSON. *)
Fixpoint parseValue (fuel : nat) (cs : list ascii) : option (JValue * list ascii) :=
  match fuel with
  | O => None
  | S fuel' =>
      match skipWhite cs with
      | [] => None
      | c :: rest =>
          if Ascii.eqb c "n" then
            rest' ← expect (list_ascii_of_string "ull") rest; Some (JNull, rest')
          else if Ascii.eqb c "t" then
            rest' ← expect (list_ascii_of_string "rue") rest; Some (JBool true, rest')
          else if Ascii.eqb c "f" then
            rest' ← expect (list_ascii_of_string "alse") rest; Some (JBool false, rest')
          else if Ascii.eqb c DQ then
            '(s, rest') ← scanString (S (length rest)) rest;
            Some (JString (string_of_list_ascii s), rest')
          else if Ascii.eqb c "[" then
            match skipWhite rest with
            | "]"%char :: rest' => Some (JArray [], rest')
            | _ =>
                (fix elements (n : nat) (cs : list ascii) (acc : list JValue) :=
                   match n with
                   | O => None
                   | S n' =>
                       '(v, rest') ← parseValue fuel' cs;
                       match skipWhite rest' with
                       | ","%char :: rest'' => elements n' rest'' (v :: acc)
                       | "]"%char :: rest'' => Some (JArray (rev (v :: acc)), rest'')
                       | _ => None
                       end
                   end) fuel' rest []
            end
          else if Ascii.eqb c "{" then
            match skipWhite rest with
            | "}"%char :: rest' => Some (JObject [], rest')
            | _ =>
                (fix members (n : nat) (cs : list ascii) (acc : list (string * JValue)) :=
                   match n with
                   | O => None
                   | S n' =>
                       match skipWhite cs with
                       | q :: rest' =>
                           if Ascii.eqb q DQ then
                             '(k, rest'') ← scanString (S (length rest')) rest';
                             match skipWhite rest'' with
                             | ":"%char :: rest3 =>
                                 '(v, rest4) ← parseValue fuel' rest3;
                                 let acc := (string_of_list_ascii k, v) :: acc in
                                 match skipWhite rest4 with
                                 | ","%char :: rest5 => members n' rest5 acc
                                 | "}"%char :: rest5 => Some (JObject (rev acc), rest5)
                                 | _ => None
                                 end
                             | _ => None
                             end
                           else None
                       | [] => None
                       end
                   end) fuel' rest []
            end
          else
            '(literal, rest') ← scanNumber (c :: rest);
            Some (JNumber (string_of_list_ascii literal), rest')
      end
  end.

(** The whole text as one JSON value. *)
Definition parseJSON (text : string) : option JValue :=
  let cs := list_ascii_of_string text in
  match parseValue (S (length cs)) cs with
  | Some (v, rest) =>
      match skipWhite rest with
      | [] => Some v
      | _ :: _ => None
      end
  | None => None
  end.

(** The compact JSON text of a value (strings are written without
    escapes). *)
Fixpoint render (v : JValue) : string :=
  match v with
  | JNull => "null"
  | JBool true => "true"
  | JBool false => "false"
  | JNumber literal => literal
  | JString s => quoted s
  | JArray elements =>
      "[" +:+ fold_right (fun e s => render e +:+ (if String.eqb s "" then "" else ",") +:+ s)
                 "" elements +:+ "]"
  | JObject members =>
      "{" +:+ fold_right
                (fun m s => quoted (fst m) +:+ ":"
                            +:+ render (snd m)
                            +:+ (if String.eqb s "" then "" else ",") +:+ s)
                "" members +:+ "}"
  end.

(** Modelled from the spec: the field map is declared outside the source
    file; it is "a mapping from tag name to a loosely-typed value (string,
    number, or nested structure)", and [GetString] "returns the field's
    string representation or empty string if absent". *)
Definition lookupString (m : gmap string JValue) (key : string) : string :=
  match m !! key with
  | None => ""
  | Some (JString s) => s
  | Some (JNumber literal) => literal
  | Some v => render v
  end.

Definition kindName (v : JValue) : string :=
  match v with
  | JNull => "null"
  | JBool _ => "bool"
  | JNumber _ => "number"
  | JString _ => "string"
  | JArray _ => "array"
  | JObject _ => "object"
  end.

(** A later member with the same name replaces an earlier one. *)
Definition mapOfMembers (members : list (string * JValue)) : gmap string JValue :=
  foldl (fun m kv => <[fst kv := snd kv]> m) ∅ members.

(** The elements of an array as field maps: an object gives its map,
    [null] the nil map, anything else an error. *)
Fixpoint decodeElements (elements : list JValue) : list (gmap string JValue) + error :=
  match elements with
  | [] => inl []
  | e :: rest =>
      let this : gmap string JValue + error :=
        match e with
        | JObject members => inl (mapOfMembers members)
        | JNull => inl ∅
        | v => inr (LibError ("json: cannot unmarshal " +:+ kindName v
                              +:+ " into Go value of type main.KeyValueMap"))
        end in
      match this, decodeElements rest with
      | inr err, _ => inr err
      | inl _, inr err => inr err
      | inl m, inl ms => inl (m :: ms)
      end
  end.

(** [json.Unmarshal] into a [[]KeyValueMap] that is empty before the call:
    [null] leaves it empty, an array fills it, any other value and any text
    that is not JSON is an error. *)
Definition unmarshal (b : list byte) : list (gmap string JValue) + error :=
  match parseJSON (string_of b) with
  | None => inr (LibError "json: syntax error")
  | Some JNull => inl []
  | Some (JArray elements) => decodeElements elements
  | Some v => inr (LibError ("json: cannot unmarshal " +:+ kindName v
                             +:+ " into Go value of type []main.KeyValueMap"))
  end.

(** The layout of the timestamps that exiftool prints. *)
Definition exifLayout : string := "2006:01:02 15:04:05".

(** Modelled from the spec: the format detection is outside the source
    file ("format detection is an external collaborator"); this one takes
    every timestamp to be in [exifLayout] and leaves it as it is. *)
Definition normalize (val : string) : string * string :=
  (exifLayout, val).

Fixpoint digitsValue (acc : Z) (cs : list ascii) : option Z :=
  match cs with
  | [] => Some acc
  | c :: cs' =>
      if isDigit c then digitsValue (acc * 10 + (Z.of_nat (nat_of_ascii c) - 48)) cs'
      else None
  end.

(** Days from January 1, 1970 to the given day of the proleptic Gregorian
    calendar. *)
Definition days_from_civil (y m d : Z) : Z :=
  let y := if m <=? 2 then y - 1 else y in
  let era := y / 400 in
  let yoe := y - era * 400 in
  let doy := (153 * (if 2 <? m then m - 3 else m + 9) + 2) / 5 + d - 1 in
  let doe := yoe * 365 + yoe / 4 - yoe / 100 + doy in
  era * 146097 + doe - 719468.

Definition isLeap (y : Z) : bool :=
  ((y mod 4 =? 0) && negb (y mod 100 =? 0)) || (y mod 400 =? 0).

Definition daysIn (m y : Z) : Z :=
  if m =? 2 then (if isLeap y then 29 else 28)
  else if (m =? 4) || (m =? 6) || (m =? 9) || (m =? 11) then 30
  else 31.

(** [time.Parse] at the layout [exifLayout]; a time without a zone is in
    UTC. *)
Definition parseTime (layout value : string) : Time * option error :=
  let failed :=
    (zeroTime,
     Some (LibError ("parsing time " +:+ quoted value +:+ " as " +:+ quoted layout
                     +:+ ": cannot parse"))) in
  if negb (String.eqb layout exifLayout) then failed
  else
    match list_ascii_of_string value with
    | [y1; y2; y3; y4; c1; m1; m2; c2; d1; d2; sp; h1; h2; c3; n1; n2; c4; s1; s2] =>
        if Ascii.eqb c1 ":" && Ascii.eqb c2 ":" && Ascii.eqb sp " "
           && Ascii.eqb c3 ":" && Ascii.eqb c4 ":" then
          match digitsValue 0 [y1; y2; y3; y4], digitsValue 0 [m1; m2],
                digitsValue 0 [d1; d2], digitsValue 0 [h1; h2],
                digitsValue 0 [n1; n2], digitsValue 0 [s1; s2] with
          | Some y, Some m, Some d, Some h, Some n, Some s =>
              if (1 <=? m) && (m <=? 12) && (1 <=? d) && (d <=? daysIn m y)
                 && (h <? 24) && (n <? 60) && (s <? 60) then
                ({| unixSec := days_from_civil y m d * 86400 + h * 3600 + n * 60 + s;
                    nsec := 0; zoneOffset := 0 |}, None)
              else failed
          | _, _, _, _, _, _ => failed
          end
        else failed
    | _ => failed
    end.

(** [fmt.Sprintf(format)] with no operands, for a format in which every
    [%] is directly followed by its verb: [%%] is a percent sign, any
    other verb finds its operand missing. *)
Fixpoint sprintf0 (format : string) : string :=
  match format with
  | EmptyString => EmptyString
  | String "%" EmptyString => "%!(NOVERB)"
  | String "%" (String verb rest) =>
      if Ascii.eqb verb "%" then String "%" (sprintf0 rest)
      else "%!" +:+ String verb "(MISSING)" +:+ sprintf0 rest
  | String c rest => String c (sprintf0 rest)
  end.

Definition externals : Externals :=
  {| KeyValueMap := gmap string JValue;
     nilKeyValueMap := ∅;
     GetString := lookupString;
     json_Unmarshal := unmarshal;
     NormalizeTimestampStringFormat := normalize;
     time_Parse := parseTime;
     fmt_Sprintf0 := sprintf0 |}.

(** A JSON text written with apostrophes for its quotation marks. *)
Fixpoint json (text : string) : string :=
  match text with
  | EmptyString => EmptyString
  | String c rest => String (if Ascii.eqb c "'" then DQ else c) (json rest)
  end.

(** [ExifToolMetadata{}] with the given source file. *)
Definition fresh (file : string) : ExifToolMetadata (H := externals) :=
  {| SourceFile := file; DataMap := ∅; DataMapJson := "" |}.

(** The record that [Parse] makes of a JSON text. *)
Definition recordOf (file text : string) : ExifToolMetadata (H := externals) :=
  fst (Parse (H := externals) (fresh file) (bytes_of (json text))).

(** A session with the default configuration whose subprocess will write
    the given chunks and then end its output with [closing]. *)
Definition session (goos : string) (output : list string) (closing : error) : Exiftool :=
  {| config := UseDefaults goos;
     io := {| stdin := [];
              scanMergedOut :=
                NewScanner {| chunks := map bytes_of output; closing := closing |} |} |}.

End Sample.

(** ** Vocabulary of the statements *)

(** [sep] occurs in [s] at offset [k]. *)
Definition occurs_at (s sep : list byte) (k : nat) : Prop :=
  take (length sep) (drop k s) = sep.

(** [k] is the offset of the first occurrence of [sep] in [s]. *)
Definition first_occurrence (s sep : list byte) (k : nat) : Prop :=
  occurs_at s sep k /\ forall j, (j < k)%nat -> ~ occurs_at s sep j.

(** The offset of a zone is less than two days (an offset that [time.Parse]
    reads is at most 24:60:60). *)
Definition zoneBounded (t : Time) : Prop := -172800 <= zoneOffset t <= 172800.

(** [sub] is a part of [s]. *)
Definition contains (s sub : string) : Prop :=
  exists pre post, s = pre +:+ sub +:+ post.

(** The configuration holds a ready token that is not empty, and its
    length. *)
Definition configReady (config : ExiftoolConfig) : Prop :=
  readyTokenLength config = len (readyToken config) /\ readyToken config <> [].

(** The ready token does not occur in [data]. *)
Definition tokenFree (config : ExiftoolConfig) (data : list byte) : Prop :=
  forall k, ~ occurs_at data (readyToken config) k.

(** The data of the scanner lies within its buffer, whose size is an int. *)
Definition inBounds (s : Scanner) : Prop :=
  (start s + length (buffered s) <= bufLen s)%nat /\ Z.of_nat (bufLen s) <= maxInt.

(** A scanner between two requests: it is not done, its data is within
    bounds, and when its error is set no ready token is left in its data. *)
Definition settled (config : ExiftoolConfig) (s : Scanner) : Prop :=
  scanDone s = false /\ inBounds s
  /\ (IsError (scanErr s) = true -> tokenFree config (buffered s)).

(** What [GetMediaDuration] makes of a field value before it examines it:
    the value without "(approx)", then without spaces. *)
Definition normalizedDuration (val : string) : string :=
  strings_ReplaceAll (strings_ReplaceAll val "(approx)" "") " " "".

(** [s] begins, or ends, with white space. *)
Definition beginsWithSpace (s : string) : bool :=
  match cutAnyPrefix spaceRunes s with Some _ => true | None => false end.

Definition endsWithSpace (s : string) : bool :=
  match cutAnyPrefix (map reverse_string spaceRunes) (reverse_string s) with
  | Some _ => true
  | None => false
  end.

Section Vocabulary.
Context `{Externals}.

(** The date of a candidate field, when [GetTime] parsed it. *)
Definition parsedDate (meta : ExifToolMetadata) (key : string) : option Time :=
  if IsError (GetTime meta key).2 then None else Some (GetTime meta key).1.

(** The fatal end of [GetEarliestCreationDate]: the source file is printed
    and the process stops with [ExifCreationDateNotFoundError]. *)
Definition notFound (meta : ExifToolMetadata) : Proc Time :=
  Fatal [SourceFile meta] ExifCreationDateNotFoundError.

(** The media duration as the description words it: of the three fields, in
    their order, the first that is not empty once "(approx)" and the spaces
    are removed, so normalized; the empty string when there is none. *)
Definition describedMediaDuration (meta : ExifToolMetadata) : string :=
  default ""
    (head (filter (fun val => val <> "")
             (normalizedDuration <$>
                [Get meta "Duration"; Get meta "MediaDuration"; Get meta "TrackDuration"]))).

End Vocabulary.

(** ** Sessions and records to run the functions on *)

Module Cases.
Import Sample.

(** The two times of the record [epochAnd2010]. *)
Definition t1970 : Time := {| unixSec := 0; nsec := 0; zoneOffset := 0 |}.
Definition t2010 : Time := {| unixSec := 1276603200; nsec := 0; zoneOffset := 0 |}.

(** A record with two dates: midnight of January 1, 1970 and noon of
    June 15, 2010. *)
Definition epochAnd2010 : ExifToolMetadata (H := externals) :=
  recordOf "a.jpg"
    "[{'CreateDate':'1970:01:01 00:00:00','ModifyDate':'2010:06:15 12:00:00'}]".



(** A record whose Duration is a tab and whose MediaDuration is given. *)
Definition tabDuration : ExifToolMetadata (H := externals) :=
  recordOf "a.mp4" "[{'Duration':'\t','MediaDuration':'5s'}]".

Definition approxDuration : ExifToolMetadata (H := externals) :=
  recordOf "a.mp4" "[{'Duration':'10.5 s (approx)'}]".

(** A record whose Make ends with a space and that has no Model. *)
Definition spacedMake : ExifToolMetadata (H := externals) :=
  recordOf "a.jpg" "[{'Make':'Canon '}]".

Definition canonEOS : ExifToolMetadata (H := externals) :=
  recordOf "a.jpg" "[{'Make':'Canon','Model':'EOS 5D'}]".

(** The output of a subprocess that answers with a record of another source
    file, in two reads, and then ends. *)
Definition answering : Exiftool :=
  session "linux"
    [json "[{'SourceFile':'b.jpg','Make':'Canon'}]" +:+ LF +:+ "{rea"; "dy}" +:+ LF]
    io_EOF.

(** The output of a subprocess that begins a record and then fails: the read
    ends with an error of the pipe, and no ready token has come. *)
Definition failing : Exiftool :=
  session "linux" [json "[{'SourceFile':'a.jpg'"]
    (LibError "io: read/write on closed pipe").

(** The output of a subprocess that answers with an empty array. *)
Definition emptyAnswer : Exiftool :=
  session "linux" ["[]{ready}" +:+ LF] io_EOF.

(** A buffer with a record, the ready token, and the ready token again. *)
Definition twoTokens : list byte :=
  bytes_of ("[]" +:+ "{ready}" +:+ LF +:+ "{ready}" +:+ LF).

End Cases.

(** ** The rest of the metadata record *)

Section MoreAccessors.
Context `{Externals}.

(** [GetFullCreationSoftware()] *)
Definition GetFullCreationSoftware (meta : ExifToolMetadata) : string :=
  let str := "" in
  let str :=
    if negb (String.eqb (Get meta "CreatorTool") "") then str +:+ Get meta "CreatorTool"
    else str in
  let str :=
    if negb (String.eqb (Get meta "Software") "")
       && negb (String.eqb (Get meta "Software") str)
    then
      if String.eqb str "" then Get meta "Software"
      else str +:+ " (" +:+ Get meta "Software" +:+ ")"
    else str in
  strings_TrimSpace str.

End MoreAccessors.

(** ** Opening and closing the session *)

(** What the operating system answers while [Close] runs: the error of the
    write of each closing argument, by its position, and the errors of the
    two calls that close the pipes. *)
Record CloseWorld : Type := {
  writeErr : nat -> option error;
  closeOutErr : option error;
  closeInErr : option error
}.

(** What [Close] has done when it returns: the lines it has written in full
    to the command channel, whether it has called [Close] on the merged output and
    on the command channel, and the error it returns. *)
Record Closing : Type := {
  closeWritten : list string;
  outCloseCalled : bool;
  inCloseCalled : bool;
  closeReturned : option error
}.

(** The loop of [Close] over the closing arguments, from position [i] on:
    the lines written, and the error of the write that failed. *)
Fixpoint writeCloseArgs (world : CloseWorld) (i : nat) (args : list string)
  : list string * option error :=
  match args with
  | [] => ([], None)
  | v :: rest =>
      match writeErr world i with
      | Some err => ([], Some err)
      | None =>
          let '(written, err) := writeCloseArgs world (S i) rest in
          (Fprintln [] v ++ written, err)
      end
  end.

(** The text of [fmt.Sprintf("%v", errs)] for a slice of errors. *)
Fixpoint joinErrors (errs : list error) : string :=
  match errs with
  | [] => ""
  | [e] => Error e
  | e :: rest => Error e +:+ " " +:+ joinErrors rest
  end.

(** [Close()] *)
Definition Close (config : ExiftoolConfig) (world : CloseWorld) : Closing :=
  match writeCloseArgs world 0 (bufferCloseArgs config) with
  | (written, Some err) =>
      {| closeWritten := written; outCloseCalled := false; inCloseCalled := false;
         closeReturned := Some err |}
  | (written, None) =>
      let errs : list error := [] in
      let errs :=
        match closeOutErr world with
        | Some err =>
            errs ++ [Wrapf ("error while closing stdMergedOut: " +:+ Error err) err]
        | None => errs
        end in
      let errs :=
        match closeInErr world with
        | Some err => errs ++ [Wrapf ("error while closing stdin: " +:+ Error err) err]
        | None => errs
        end in
      {| closeWritten := written; outCloseCalled := true; inCloseCalled := true;
         closeReturned :=
           if 0 <? len errs
           then Some (Errorf ("error while closing exiftool: [" +:+ joinErrors errs +:+ "]"))
           else None |}
  end.

(** The session as [Open] finds it: the configuration and the buffer that
    the caller has set for the scanner, if any ([bufferCap] is the capacity
    of that buffer). *)
Record ExiftoolSetup : Type := {
  setupConfig : ExiftoolConfig;
  bufferSet : bool;
  bufferCap : nat;
  bufferMaxSize : int
}.

(** What the operating system answers while [Open] runs: the platform, the
    reader end of the pipe that merges the output of the subprocess, and the
    errors of [cmd.StdinPipe] and of [cmd.Start]. *)
Record OpenWorld : Type := {
  GOOS : string;
  mergedOut : Reader;
  stdinPipeErr : option error;
  startErr : option error
}.

(** What [Open] leaves: the configuration, the command line of the
    subprocess it has built, the scanner it has set up (none when it has
    returned before), and the error it returns. *)
Record Opening : Type := {
  openConfig : ExiftoolConfig;
  commandLine : list string;
  openScanner : option Scanner;
  openReturned : option error
}.

(** [Open()] *)
Definition Open (setup : ExiftoolSetup) (world : OpenWorld) : Opening :=
  let config :=
    if String.eqb (executable (setupConfig setup)) "" then UseDefaults (GOOS world)
    else setupConfig setup in
  let cmd := executable config :: bufferOpenArgs config in
  match stdinPipeErr world with
  | Some err =>
      {| openConfig := config; commandLine := cmd; openScanner := None;
         openReturned := Some (Wrapf ("error when piping stdin: " +:+ Error err) err) |}
  | None =>
      let scanner := NewScanner (mergedOut world) in
      let scanner :=
        if bufferSet setup then Buffer scanner (bufferCap setup) (bufferMaxSize setup)
        else scanner in
      match startErr world with
      | Some err =>
          {| openConfig := config; commandLine := cmd; openScanner := Some scanner;
             openReturned :=
               Some (Wrapf ("error when executing commande: " +:+ Error err) err) |}
      | None =>
          {| openConfig := config; commandLine := cmd; openScanner := Some scanner;
             openReturned := None |}
      end
  end.

(** The session that a successful [Open] hands to [ReadMetadata]. *)
Definition opened (opening : Opening) (scanner : Scanner) : Exiftool :=
  {| config := openConfig opening;
     io := {| stdin := []; scanMergedOut := scanner |} |}.

(** ** More vocabulary *)

(** The bytes that a scanner has yet to hand out: its data, and what its
    reader will deliver. *)
Definition future (s : Scanner) : list byte :=
  buffered s ++ concat (chunks (rd s)).

(** Every read of the reader delivers at least one byte, until its end. *)
Definition lively (r : Reader) : Prop := Forall (fun c => c <> []) (chunks r).

(** A scanner before a request whose answer is on its way: no error is set,
    the ready token first occurs at offset [idx] of the bytes to come, and
    the record with its token is within the largest token size. *)
Definition awaiting (config : ExiftoolConfig) (s : Scanner) (idx : nat) : Prop :=
  scanDone s = false /\ scanErr s = None /\ inBounds s /\ lively (rd s)
  /\ first_occurrence (future s) (readyToken config) idx
  /\ Z.of_nat (idx + length (readyToken config)) <= maxTokenSize s
  /\ maxTokenSize s <= 2 ^ 62.

(** A scanner before a request that cannot be answered: within the largest
    token size, which the buffer does not exceed, no ready token is complete
    in the bytes to come. *)
Definition starved (config : ExiftoolConfig) (s : Scanner) : Prop :=
  scanDone s = false /\ inBounds s
  /\ Z.of_nat (bufLen s) <= maxTokenSize s
  /\ forall k, occurs_at (future s) (readyToken config) k ->
               maxTokenSize s < Z.of_nat (k + length (readyToken config)).

(** A scanner after a request that was answered, [before] being the scanner
    before it: its token is the bytes before the ready token, the bytes to
    come are those after the ready token, and it is ready for the next
    request. *)
Definition delivered (config : ExiftoolConfig) (before : Scanner) (idx : nat)
    (s : Scanner) : Prop :=
  token s = Some (take idx (future before))
  /\ future s = drop (idx + length (readyToken config)) (future before)
  /\ scanErr s = None /\ scanDone s = false /\ inBounds s /\ lively (rd s)
  /\ maxTokenSize s = maxTokenSize before.

(** The record that [ReadMetadata] holds when it comes to the scan. *)
Definition requested `{Externals} (file : string) : ExifToolMetadata :=
  (Parse {| SourceFile := file; DataMap := nilKeyValueMap; DataMapJson := "" |}
     (bytes_of "{}")).1.

(** ** Streams to run the session on *)

Module Streams.
Import Sample.

(** The two answers of a subprocess to two requests, as exiftool prints
    them: each record, a line feed and the ready token. *)
Definition firstAnswer : string :=
  json "[{'SourceFile':'a.jpg','Make':'Canon'}]" +:+ LF.

Definition secondAnswer : string :=
  json "[{'SourceFile':'b.jpg','Model':'EOS 5D'}]" +:+ LF.

(** A subprocess that has answered two requests already; its output comes in
    three reads that cut the first ready token in two and join the end of the
    first answer to the second. *)
Definition pipelined : Exiftool :=
  session "linux"
    [json "[{'SourceFile':'a.jpg',";
     json "'Make':'Canon'}]" +:+ LF +:+ "{rea";
     "dy}" +:+ LF +:+ secondAnswer +:+ "{ready}" +:+ LF]
    io_EOF.

(** A session whose scanner was given a buffer of 8 bytes that may grow to
    16, and whose subprocess answers with a record of more than 16 bytes. *)
Definition cramped : Exiftool :=
  {| config := UseDefaults "linux";
     io := {| stdin := [];
              scanMergedOut :=
                Buffer
                  (NewScanner
                     {| chunks := [bytes_of (firstAnswer +:+ "{ready}" +:+ LF)];
                        closing := io_EOF |})
                  8 16 |} |}.

End Streams.

(** ** Records and operating systems to run the rest on *)

Module Worlds.
Import Sample.

(** A record whose CreatorTool and Software hold what the Make and Model of
    [Cases.canonEOS] hold. *)
Definition relabelled : ExifToolMetadata (H := externals) :=
  recordOf "a.jpg" "[{'CreatorTool':'Canon','Software':'EOS 5D'}]".

Definition closedPipe : error := LibError "io: read/write on closed pipe".

Definition alreadyClosed : error := LibError "close |1: file already closed".

Definition toolNotFound : error :=
  LibError (json "exec: 'exiftool': executable file not found in $PATH").

(** The subprocess has gone: the second write fails. *)
Definition brokenPipe : CloseWorld :=
  {| writeErr := fun i => if Nat.eqb i 1 then Some closedPipe else None;
     closeOutErr := None;
     closeInErr := None |}.

(** The command channel was closed before. *)
Definition closedTwice : CloseWorld :=
  {| writeErr := fun _ => None;
     closeOutErr := None;
     closeInErr := Some alreadyClosed |}.

(** [Exiftool{}], as a caller declares it. *)
Definition plainSetup : ExiftoolSetup :=
  {| setupConfig :=
       {| executable := ""; bufferOpenArgs := []; readyToken := [];
          readyTokenLength := 0; bufferCloseArgs := []; dataExtractArgs := [];
          executeArg := "" |};
     bufferSet := false; bufferCap := 0; bufferMaxSize := 0 |}.

(** A platform on which exiftool starts and answers as [Streams.pipelined]
    does. *)
Definition answeringWorld : OpenWorld :=
  {| GOOS := "linux";
     mergedOut := rd (scanMergedOut (io Streams.pipelined));
     stdinPipeErr := None;
     startErr := None |}.

(** A platform without exiftool. *)
Definition missingTool : OpenWorld :=
  {| GOOS := "linux";
     mergedOut := {| chunks := []; closing := io_EOF |};
     stdinPipeErr := None;
     startErr := Some toolNotFound |}.

End Worlds.

(** ** A format detection that rewrites the value *)


Module Zoned.
Import Sample.





End Zoned.

(** * Properties *)

(** ** The models on small inputs *)

Example int_add_wraps : int_add maxInt 1 = minInt.
Proof. reflexivity. Qed.

Example bytes_Index_first : bytes_Index (bytes_of "abcabc") (bytes_of "bc") = 1.
Proof. reflexivity. Qed.

Example bytes_Index_absent : bytes_Index (bytes_of "abcabc") (bytes_of "cb") = -1.
Proof. reflexivity. Qed.

Example bytes_Index_empty_separator : bytes_Index (bytes_of "abc") [] = 0.
Proof. reflexivity. Qed.

Example ReplaceAll_leftmost : strings_ReplaceAll "aaa" "aa" "b" = "ba".
Proof. reflexivity. Qed.

Example ReplaceAll_approx :
  strings_ReplaceAll "1 s (approx) (appr(approx)ox)" "(approx)" "" = "1 s  (approx)".
Proof. reflexivity. Qed.

Example TrimSpace_ends :
  strings_TrimSpace (ofCodes [9; 32; 194; 160; 97; 32; 98; 226; 128; 131; 10]%nat) = "a b".
Proof. reflexivity. Qed.

Example TrimSpace_keeps_broken_rune :
  strings_TrimSpace (ofCodes [97; 194]%nat) = ofCodes [97; 194]%nat.
Proof. reflexivity. Qed.

Example Year_zero : Year zeroTime = 1.
Proof. reflexivity. Qed.

Example Year_last_second_of_1970 :
  Year {| unixSec := 31535999; nsec := 0; zoneOffset := 0 |} = 1970.
Proof. reflexivity. Qed.

Example Year_first_second_of_1971 :
  Year {| unixSec := 31536000; nsec := 0; zoneOffset := 0 |} = 1971.
Proof. reflexivity. Qed.

Example Year_in_zone :
  Year {| unixSec := 0; nsec := 0; zoneOffset := -3600 |} = 1969.
Proof. reflexivity. Qed.

Example Year_leap_day :
  Year {| unixSec := 951782400; nsec := 0; zoneOffset := 0 |} = 2000.
Proof. reflexivity. Qed.

Example leading_digit_zero : matchesLeadingNonzeroDigit "0000:00:00" = false.
Proof. reflexivity. Qed.

Example leading_digit_two : matchesLeadingNonzeroDigit "2010:06:15 12:00:00" = true.
Proof. reflexivity. Qed.

Example errors_Is_wrapped :
  errors_Is (Some (Wrapf "outer: zero-date string" ZeroDateError)) ZeroDateError = true.
Proof. reflexivity. Qed.

Example errors_Is_same_text :
  errors_Is (Some (Errorf "zero-date string")) ZeroDateError = false.
Proof. reflexivity. Qed.

(** ** Arithmetic on ints *)

Lemma int_wrap_small (z : Z) : minInt <= z <= maxInt -> int_wrap z = z.
Proof.
  unfold int_wrap, minInt, maxInt. intros Hz.
  rewrite Z.mod_small; lia.
Qed.

Lemma len_nonneg {A} (s : list A) : 0 <= len s.
Proof. unfold len. lia. Qed.

(** ** Occurrences of a separator *)

Lemma bytes_HasPrefix_take (s p : list byte) :
  bytes_HasPrefix s p = true <-> take (length p) s = p.
Proof.
  revert s. induction p as [|b p IH]; intros s; simpl.
  - by rewrite take_0.
  - destruct s as [|c s]; simpl; [done|].
    destruct (decide (c = b)) as [->|Hne].
    + rewrite IH. split; [by intros -> | by intros [= ->]].
    + split; [done | intros [= Hc _]; done].
Qed.

Lemma occurs_at_bound (s sep : list byte) (k : nat) :
  occurs_at s sep k -> (k + length sep <= length s)%nat \/ sep = [].
Proof.
  unfold occurs_at. intros H.
  destruct sep as [|b sep]; [by right | left].
  assert (Hl : length (take (length (b :: sep)) (drop k s)) = length (b :: sep))
    by (by rewrite H).
  rewrite length_take, length_drop in Hl. cbn [length] in *. lia.
Qed.

Lemma occurs_at_cons (c : byte) (s sep : list byte) (k : nat) :
  occurs_at (c :: s) sep (S k) <-> occurs_at s sep k.
Proof. done. Qed.

Lemma index_from_cases (s sep : list byte) (i : int) :
  (index_from i s sep = -1 /\ forall k, ~ occurs_at s sep k) \/
  (exists k, first_occurrence s sep k /\ index_from i s sep = i + Z.of_nat k) \/
  i < 0.
Proof.
  destruct (decide (i < 0)) as [|Hi]; [by right; right|].
  revert i Hi. induction s as [|c s IH]; intros i Hi; cbn [index_from].
  - destruct (bytes_HasPrefix [] sep) eqn:Hp.
    + right; left. exists 0%nat. split; [|lia].
      split; [by apply bytes_HasPrefix_take | intros j Hj; lia].
    + left. split; [done|]. intros k Hk. unfold occurs_at in Hk.
      rewrite drop_nil in Hk.
      assert (bytes_HasPrefix [] sep = true) by (by apply bytes_HasPrefix_take).
      congruence.
  - destruct (bytes_HasPrefix (c :: s) sep) eqn:Hp.
    + right; left. exists 0%nat. split; [|lia].
      split; [by apply bytes_HasPrefix_take | intros j Hj; lia].
    + assert (H0 : ~ occurs_at (c :: s) sep 0).
      { unfold occurs_at. rewrite drop_0. intros Hk.
        apply bytes_HasPrefix_take in Hk. congruence. }
      destruct (IH (i + 1)) as [[Hn Hno]|[(k & [Hk Hfirst] & Hidx)|Hneg]]; [lia| | |lia].
      * left. split; [done|]. intros [|k]; [done|]. rewrite occurs_at_cons. apply Hno.
      * right; left. exists (S k). split; [|lia].
        split; [by rewrite occurs_at_cons|].
        intros [|j] Hj; [done|]. rewrite occurs_at_cons. apply Hfirst. lia.
Qed.

Lemma first_occurrence_unique (s sep : list byte) (j k : nat) :
  first_occurrence s sep j -> first_occurrence s sep k -> j = k.
Proof.
  intros [Hj Hjmin] [Hk Hkmin].
  destruct (Nat.lt_trichotomy j k) as [Hlt|[->|Hlt]]; [|done|].
  - by destruct (Hkmin j Hlt).
  - by destruct (Hjmin k Hlt).
Qed.

Lemma bytes_Index_found (s sep : list byte) (k : nat) :
  first_occurrence s sep k -> bytes_Index s sep = Z.of_nat k.
Proof.
  intros Hk. unfold bytes_Index.
  destruct (index_from_cases s sep 0) as [[_ Hno]|[(j & Hj & ->)|?]]; [|..|lia].
  - destruct Hk as [Hk _]. by destruct (Hno k).
  - by rewrite (first_occurrence_unique _ _ _ _ Hj Hk).
Qed.

Lemma bytes_Index_not_found (s sep : list byte) :
  (forall k, ~ occurs_at s sep k) -> bytes_Index s sep = -1.
Proof.
  intros Hno. unfold bytes_Index.
  destruct (index_from_cases s sep 0) as [[-> _]|[(j & [Hj _] & _)|?]]; [done| |lia].
  by destruct (Hno j).
Qed.

Lemma bytes_Index_minus_one (s sep : list byte) :
  bytes_Index s sep = -1 -> forall k, ~ occurs_at s sep k.
Proof.
  unfold bytes_Index. intros H.
  destruct (index_from_cases s sep 0) as [[_ Hno]|[(j & _ & Hj)|?]]; [done|lia|lia].
Qed.

(** ** The framing function *)

Lemma UseDefaults_readyToken (goos : string) :
  readyTokenLength (UseDefaults goos) = len (readyToken (UseDefaults goos))
  /\ readyToken (UseDefaults goos) <> [].
Proof.
  split; [done|]. unfold UseDefaults; simpl.
  destruct (String.eqb goos "windows"); done.
Qed.

Lemma splitReadyToken_at (config : ExiftoolConfig) (data : list byte) (atEOF : bool)
    (idx : nat) :
  readyTokenLength config = len (readyToken config) ->
  Z.of_nat idx + len (readyToken config) <= maxInt ->
  first_occurrence data (readyToken config) idx ->
  splitReadyToken config data atEOF
  = (Z.of_nat idx + len (readyToken config), Some (take idx data), None).
Proof.
  intros Hlen Hmax Hfirst. unfold splitReadyToken.
  rewrite (bytes_Index_found _ _ _ Hfirst), Hlen.
  destruct (Z.eqb_spec (Z.of_nat idx) (-1)) as [|_]; [lia|].
  unfold int_add. rewrite int_wrap_small, Nat2Z.id; [done|].
  unfold minInt, len in *. lia.
Qed.

Lemma occurs_at_take (data sep : list byte) (idx j : nat) :
  sep <> [] -> occurs_at (take idx data) sep j ->
  (j < idx)%nat /\ occurs_at data sep j.
Proof.
  intros Hne Hocc.
  destruct (occurs_at_bound _ _ _ Hocc) as [Hb|]; [|done].
  rewrite length_take in Hb.
  assert (0 < length sep)%nat by (destruct sep; [done | simpl; lia]).
  split; [lia|].
  unfold occurs_at in *.
  rewrite take_drop_commute in Hocc |- *. rewrite take_take in Hocc.
  by replace ((j + length sep) `min` idx)%nat with (j + length sep)%nat in Hocc by lia.
Qed.

(** C5: when the ready token first occurs at offset [idx], the split consumes
    [idx + len(readyToken)] bytes, which the buffer holds, and emits
    [data[:idx]]; the token does not occur in the emitted record; and when the
    bytes that follow the consumed ones begin with the token again, the split
    of what is left gives the empty record. *)
Theorem splitReadyToken_found (config : ExiftoolConfig) (data : list byte)
    (atEOF : bool) (idx : nat) :
  readyTokenLength config = len (readyToken config) ->
  readyToken config <> [] ->
  len data <= maxInt ->
  first_occurrence data (readyToken config) idx ->
  splitReadyToken config data atEOF
  = (Z.of_nat idx + len (readyToken config), Some (take idx data), None)
  /\ Z.of_nat idx + len (readyToken config) <= len data
  /\ (forall j, ~ occurs_at (take idx data) (readyToken config) j)
  /\ (forall atEOF',
        readyToken config `prefix_of` drop (idx + length (readyToken config)) data ->
        splitReadyToken config (drop (idx + length (readyToken config)) data) atEOF'
        = (len (readyToken config), Some [], None)).
Proof.
  intros Hlen Hne Hmax Hfirst.
  assert (Hfit : Z.of_nat idx + len (readyToken config) <= len data).
  { destruct Hfirst as [Hocc _].
    destruct (occurs_at_bound _ _ _ Hocc) as [Hb|]; [|done].
    unfold len. lia. }
  split; [apply splitReadyToken_at; [done|lia|done]|].
  split; [done|].
  split.
  - intros j Hocc. destruct (occurs_at_take _ _ _ _ Hne Hocc) as [Hj Hocc'].
    destruct Hfirst as [_ Hmin]. by apply (Hmin j).
  - intros atEOF' [rest Hrest]. rewrite Hrest.
    rewrite (splitReadyToken_at config (readyToken config ++ rest) atEOF' 0); [done..| |].
    + change (Z.of_nat 0) with 0. pose proof (len_nonneg (A:=byte) (take idx data)). lia.
    + split; [|intros j Hj; lia].
      unfold occurs_at. by rewrite drop_0, take_app_length.
Qed.

(** C6: when the ready token does not occur in the buffer, the split fails
    with "no final token found" at end-of-stream with leftover bytes, and asks
    for more input, consuming and emitting nothing and without an error, when
    not at end-of-stream; an error is returned only at end-of-stream. *)
Theorem splitReadyToken_not_found (config : ExiftoolConfig) (data : list byte)
    (atEOF : bool) :
  (forall k, ~ occurs_at data (readyToken config) k) ->
  (atEOF = true -> data <> [] ->
     splitReadyToken config data atEOF = (0, Some data, Some noFinalToken)
     /\ Error noFinalToken = "no final token found")
  /\ (atEOF = false -> splitReadyToken config data atEOF = (0, None, None))
  /\ (forall e, (splitReadyToken config data atEOF).2 = Some e -> atEOF = true).
Proof.
  intros Hno. unfold splitReadyToken.
  rewrite (bytes_Index_not_found _ _ Hno). simpl.
  split; [|split].
  - intros -> Hdata. split; [|done].
    destruct data; [done|]. done.
  - by intros ->.
  - intros e. destruct atEOF; [done|]. done.
Qed.

(** ** Dates *)

Lemma Before_spec (t u : Time) :
  Before t u = true <->
  unixSec t < unixSec u \/ (unixSec t = unixSec u /\ nsec t < nsec u).
Proof.
  unfold Before.
  rewrite orb_true_iff, andb_true_iff, !Z.ltb_lt, Z.eqb_eq. tauto.
Qed.

Lemma Before_irrefl (t : Time) : Before t t = false.
Proof.
  destruct (Before t t) eqn:E; [|done].
  apply Before_spec in E. lia.
Qed.

Lemma Before_trans (t u v : Time) :
  Before t u = true -> Before u v = true -> Before t v = true.
Proof. rewrite !Before_spec. lia. Qed.

(** The first day of 1971 is day 365, the first day of 2010 day 14610. *)
Lemma civil_year_le_1970 (d : Z) : civil_year d <= 1970 -> d <= 364.
Proof.
  unfold civil_year. intros Hy.
  destruct (Z_le_gt_dec d 364) as [|Hgt]; [done|]. exfalso.
  revert Hy.
  set (z := d + 719468).
  set (era := z / 146097).
  set (doe := z - era * 146097).
  set (yoe := (doe - doe / 1460 + doe / 36524 - doe / 146096) / 365).
  set (doy := doe - (365 * yoe + yoe / 4 - yoe / 100)).
  set (mp := (5 * doy + 2) / 153).
  destruct (mp <? 10) eqn:Hmp;
    [destruct (mp + 3 <=? 2) eqn:Hm | destruct (mp - 9 <=? 2) eqn:Hm];
    subst mp doy yoe doe era z; intros Hy; Z.div_mod_to_equations; lia.
Qed.

Lemma civil_year_ge_2010 (d : Z) : 2010 <= civil_year d -> 14610 <= d.
Proof.
  unfold civil_year. intros Hy.
  destruct (Z_le_gt_dec 14610 d) as [|Hlt]; [done|]. exfalso.
  revert Hy.
  set (z := d + 719468).
  set (era := z / 146097).
  set (doe := z - era * 146097).
  set (yoe := (doe - doe / 1460 + doe / 36524 - doe / 146096) / 365).
  set (doy := doe - (365 * yoe + yoe / 4 - yoe / 100)).
  set (mp := (5 * doy + 2) / 153).
  destruct (mp <? 10) eqn:Hmp;
    [destruct (mp + 3 <=? 2) eqn:Hm | destruct (mp - 9 <=? 2) eqn:Hm];
    subst mp doy yoe doe era z; intros Hy; Z.div_mod_to_equations; lia.
Qed.

Lemma epoch_year_before_2010 (t u : Time) :
  zoneBounded t -> zoneBounded u ->
  Year t <= 1970 -> 2010 <= Year u -> Before t u = true.
Proof.
  unfold zoneBounded, Year. intros Ht Hu Hyt Hyu.
  apply civil_year_le_1970 in Hyt. apply civil_year_ge_2010 in Hyu.
  apply Before_spec. left.
  revert Hyt Hyu. Z.div_mod_to_equations. lia.
Qed.

(** [FindEarliestDate] gives an element of a list that is not empty, and no
    element is before it. *)
Lemma earliest_fold (seen rest : list Time) (acc : Time) :
  acc ∈ seen -> (forall c, c ∈ seen -> Before c acc = false) ->
  let e := foldl (fun earliest date => if Before date earliest then date else earliest)
             acc rest in
  e ∈ seen ++ rest /\ forall c, c ∈ seen ++ rest -> Before c e = false.
Proof.
  revert seen acc. induction rest as [|d rest IH]; intros seen acc Hin Hmin; simpl.
  - by rewrite app_nil_r.
  - replace (seen ++ d :: rest) with ((seen ++ [d]) ++ rest) by (by rewrite <- app_assoc).
    apply IH.
    + apply elem_of_app. destruct (Before d acc); [right | by left].
      by apply list_elem_of_singleton.
    + intros c Hc. apply elem_of_app in Hc as [Hc|Hc].
      * destruct (Before d acc) eqn:Hd; [|by apply Hmin].
        destruct (Before c d) eqn:Hcd; [|done].
        rewrite <- (Hmin c Hc). symmetry. by apply Before_trans with d.
      * apply list_elem_of_singleton in Hc as ->.
        destruct (Before d acc) eqn:Hd; [apply Before_irrefl | done].
Qed.

Lemma FindEarliestDate_min (dates : list Time) (fallback : Time) :
  dates <> [] ->
  FindEarliestDate dates fallback ∈ dates
  /\ forall c, c ∈ dates -> Before c (FindEarliestDate dates fallback) = false.
Proof.
  destruct dates as [|d rest]; [done|]. intros _. simpl.
  apply (earliest_fold [d] rest d); [by apply list_elem_of_singleton|].
  intros c Hc. apply list_elem_of_singleton in Hc as ->. apply Before_irrefl.
Qed.

(** ** Errors *)

Lemma error_eqb_refl (e : error) : error_eqb e e = true.
Proof.
  induction e; simpl; rewrite ?String.eqb_refl; try done.
Qed.

Lemma errors_Is_IsError (err : option error) (target : error) :
  errors_Is err target = true -> IsError err = true.
Proof. by destruct err. Qed.

(** ** Strings *)

Lemma append_cons (x : ascii) (a b : string) : String x a +:+ b = String x (a +:+ b).
Proof. done. Qed.

Lemma append_assoc (a b c : string) : (a +:+ b) +:+ c = a +:+ (b +:+ c).
Proof. induction a as [|x a IH]; [done|]. by rewrite !append_cons, IH. Qed.

Lemma append_empty_r (a : string) : a +:+ "" = a.
Proof. induction a as [|x a IH]; [done|]. by rewrite append_cons, IH. Qed.

Section MetadataProperties.
Context `{Externals}.

(** *** GetTime *)


(** *** GetEarliestCreationDate *)

Lemma collect_fold (meta : ExifToolMetadata) (keys : list string) (acc : list Time) :
  foldl
    (fun candidates key =>
       let '(candidate, err) := GetTime meta key in
       if errors_Is err ZeroDateError then candidates
       else if IsError err then candidates
       else candidates ++ [candidate])
    acc keys
  = acc ++ omap (parsedDate meta) keys.
Proof.
  revert acc. induction keys as [|key keys IH]; intros acc; simpl.
  - by rewrite app_nil_r.
  - rewrite IH. unfold parsedDate.
    destruct (GetTime meta key) as [candidate err]; simpl.
    destruct (errors_Is err ZeroDateError) eqn:Hzero.
    + by rewrite (errors_Is_IsError _ _ Hzero).
    + destruct (IsError err); [done | by rewrite <- app_assoc].
Qed.

Lemma collectCandidates_parsed (meta : ExifToolMetadata) :
  collectCandidates meta = omap (parsedDate meta) candidateKeys.
Proof. unfold collectCandidates. by rewrite collect_fold. Qed.

Lemma GetEarliestCreationDate_cases (meta : ExifToolMetadata) :
  GetEarliestCreationDate meta =
    match collectCandidates meta with
    | [] => notFound meta
    | _ :: _ =>
        let earliest := FindEarliestDate (collectCandidates meta) zeroTime in
        if Year earliest <=? 1970 then notFound meta else Returned [] earliest
    end.
Proof.
  unfold GetEarliestCreationDate, notFound.
  destruct (collectCandidates meta) as [|c cs]; [done|].
  cbn [len length]. 
  destruct (Z.eqb_spec (Z.of_nat (S (length cs))) 0) as [|_]; [lia|].
  cbn. by destruct (Year _ <=? 1970).
Qed.

(** C1, as the code has it: the dates are those of the six candidate
    fields, in their order, that [GetTime] parsed; with none the call is
    fatal; a date that is returned is one of them, none of them is before
    it and its year is after 1970; a date is returned when there is one
    and all have a year after 1970; the call is fatal when all have a year
    of 1970 or before; and with exactly two of them, one of a year at or
    before 1970 and one of 2010, the call is fatal. *)
Theorem GetEarliestCreationDate_earliest (meta : ExifToolMetadata) :
  let parsed :=
    omap (parsedDate meta)
      ["CreateDate"; "ModifyDate"; "DateTimeOriginal"; "DateTimeDigitized";
       "GPSDateTime"; "FileModifyDate"] in
  let fatal := Fatal [SourceFile meta] ExifCreationDateNotFoundError in
  (parsed = [] -> GetEarliestCreationDate meta = fatal)
  /\ (forall printed t,
        GetEarliestCreationDate meta = Returned printed t ->
        printed = [] /\ t ∈ parsed /\ (forall c, c ∈ parsed -> Before c t = false)
        /\ 1970 < Year t)
  /\ (parsed <> [] -> (forall c, c ∈ parsed -> 1970 < Year c) ->
      exists t, GetEarliestCreationDate meta = Returned [] t)
  /\ ((forall c, c ∈ parsed -> Year c <= 1970) -> GetEarliestCreationDate meta = fatal)
  /\ (forall t1 t2,
        parsed = [t1; t2] \/ parsed = [t2; t1] ->
        zoneBounded t1 -> zoneBounded t2 ->
        Year t1 <= 1970 -> Year t2 = 2010 ->
        GetEarliestCreationDate meta = fatal).
Proof.
  intros parsed fatal.
  assert (Hparsed : collectCandidates meta = parsed) by apply collectCandidates_parsed.
  pose proof (GetEarliestCreationDate_cases meta) as Hcases.
  rewrite Hparsed in Hcases. unfold notFound in Hcases.
  subst fatal. clearbody parsed.
  assert (Hmin : parsed <> [] ->
            FindEarliestDate parsed zeroTime ∈ parsed
            /\ forall c, c ∈ parsed -> Before c (FindEarliestDate parsed zeroTime) = false)
    by apply FindEarliestDate_min.
  split; [|split; [|split; [|split]]].
  - intros ->. by rewrite Hcases.
  - intros printed t. rewrite Hcases.
    destruct parsed as [|c cs]; [done|].
    destruct (Hmin ltac:(done)) as [Hin Hle].
    cbn zeta. destruct (Z.leb_spec (Year (FindEarliestDate (c :: cs) zeroTime)) 1970);
      [done|].
    intros [= <- <-]. done.
  - intros Hne Hall. rewrite Hcases.
    destruct parsed as [|c cs]; [done|].
    destruct (Hmin ltac:(done)) as [Hin _].
    cbn zeta. destruct (Z.leb_spec (Year (FindEarliestDate (c :: cs) zeroTime)) 1970) as [Hy|];
      [|by eexists].
    specialize (Hall _ Hin). lia.
  - intros Hall. rewrite Hcases.
    destruct parsed as [|c cs]; [done|].
    destruct (Hmin ltac:(done)) as [Hin _].
    cbn zeta. destruct (Z.leb_spec (Year (FindEarliestDate (c :: cs) zeroTime)) 1970) as [|Hy];
      [done|].
    specialize (Hall _ Hin). lia.
  - intros t1 t2 Hlist Hz1 Hz2 Hy1 Hy2.
    assert (Hbefore : Before t1 t2 = true)
      by (apply epoch_year_before_2010; [done..|lia]).
    assert (Hnot : Before t2 t1 = false).
    { destruct (Before t2 t1) eqn:E; [|done].
      rewrite <- (Before_irrefl t1). symmetry. by apply Before_trans with t2. }
    rewrite Hcases.
    destruct Hlist as [-> | ->]; cbn; rewrite ?Hnot, ?Hbefore;
      by destruct (Z.leb_spec (Year t1) 1970); [|lia].
Qed.

(** *** Parse *)

Lemma Parse_SourceFile (meta : ExifToolMetadata) (jsonBytes : list byte) :
  SourceFile (Parse meta jsonBytes).1 = SourceFile meta.
Proof.
  unfold Parse. destruct (json_Unmarshal jsonBytes) as [[|first rest]|err]; done.
Qed.

Lemma Parse_Panic_inv (meta : ExifToolMetadata) (jsonBytes : list byte) (msg : string) :
  (Parse meta jsonBytes).2 = Panic msg -> json_Unmarshal jsonBytes = inl [].
Proof.
  unfold Parse. by destruct (json_Unmarshal jsonBytes) as [[|first rest]|err].
Qed.

(** C3, the code on texts that decode to a sequence that has not one
    element: when the decoded sequence is empty the call panics, at the index
    expression, with the raw JSON already set; when it has one element or
    more the call returns nil and the record holds the first of them. *)
Theorem Parse_wrong_length (meta : ExifToolMetadata) (jsonBytes : list byte) :
  (json_Unmarshal jsonBytes = inl [] ->
     Parse meta jsonBytes
     = ({| SourceFile := SourceFile meta; DataMap := DataMap meta;
           DataMapJson := string_of jsonBytes |},
        Panic "runtime error: index out of range [0] with length 0"))
  /\ (forall first rest,
        json_Unmarshal jsonBytes = inl (first :: rest) ->
        Parse meta jsonBytes
        = ({| SourceFile := SourceFile meta; DataMap := first;
              DataMapJson := string_of jsonBytes |}, Ok)).
Proof. unfold Parse. split; [by intros -> | by intros first rest ->]. Qed.

(** C4, as the code has it: after a [Parse] that returned nil the raw JSON
    of the record is the text that was parsed; a [Parse] that returned an
    error has left the record as it was. *)
Theorem Parse_raw_json (meta : ExifToolMetadata) (jsonBytes : list byte) :
  ((Parse meta jsonBytes).2 = Ok ->
     DataMapJson (Parse meta jsonBytes).1 = string_of jsonBytes
     /\ bytes_of (DataMapJson (Parse meta jsonBytes).1) = jsonBytes)
  /\ (forall e, (Parse meta jsonBytes).2 = Err e -> (Parse meta jsonBytes).1 = meta).
Proof.
  unfold Parse.
  destruct (json_Unmarshal jsonBytes) as [[|first rest]|err]; cbn; split; try done.
  intros _. split; [done|]. apply list_byte_of_string_of_list_byte.
Qed.

(** *** GetMediaDuration *)

Lemma firstDuration_cons (val : string) (rest : list string) :
  firstDuration (val :: rest) =
    if String.eqb (normalizedDuration val) ""
    then firstDuration rest
    else strings_TrimSpace (normalizedDuration val).
Proof.
  cbn [firstDuration]. fold (normalizedDuration val).
  by destruct (String.eqb (normalizedDuration val) "").
Qed.

Lemma replace_space_no_space (skip : nat) (s : string) :
  ~ In " "%char (list_ascii_of_string (replaceFrom skip s " " "")).
Proof.
  revert skip. induction s as [|c s IH]; intros skip; [cbn; tauto|].
  destruct skip as [|k]; cbn [replaceFrom]; [|apply IH].
  unfold strings_HasPrefix. cbn [cutPrefix].
  destruct (Ascii.eqb_spec c " ") as [->|Hc]; cbn.
  - apply IH.
  - intros [Heq|Hin]; [done | by apply (IH 0%nat)].
Qed.

(** C8, as the code has it: of the fields Duration, MediaDuration and
    TrackDuration, in this order, the first that is not empty once
    "(approx)" and then the spaces are taken out of it decides: the result
    is what is left of it, without white space at its ends; with all three
    empty the result is empty; no space is left in what is examined; and a
    Duration of "10.5 s (approx)" gives "10.5s". *)
Theorem GetMediaDuration_first (meta : ExifToolMetadata) :
  let d1 := normalizedDuration (Get meta "Duration") in
  let d2 := normalizedDuration (Get meta "MediaDuration") in
  let d3 := normalizedDuration (Get meta "TrackDuration") in
  (d1 <> "" -> GetMediaDuration meta = strings_TrimSpace d1)
  /\ (d1 = "" -> d2 <> "" -> GetMediaDuration meta = strings_TrimSpace d2)
  /\ (d1 = "" -> d2 = "" -> d3 <> "" -> GetMediaDuration meta = strings_TrimSpace d3)
  /\ (d1 = "" -> d2 = "" -> d3 = "" -> GetMediaDuration meta = "")
  /\ (forall val, ~ In " "%char (list_ascii_of_string (normalizedDuration val)))
  /\ (Get meta "Duration" = "10.5 s (approx)" -> GetMediaDuration meta = "10.5s").
Proof.
  intros d1 d2 d3. unfold GetMediaDuration. rewrite !firstDuration_cons.
  fold d1 d2 d3. cbn [firstDuration].
  destruct (String.eqb_spec d1 ""), (String.eqb_spec d2 ""), (String.eqb_spec d3 "");
    (split; [done|]); (split; [done|]); (split; [done|]); (split; [done|]);
    (split; [intros val; apply replace_space_no_space|]);
    subst d1; intros Hd; rewrite Hd in *; done.
Qed.

(** *** GetFullCameraName *)

Lemma reverse_string_involutive (s : string) : reverse_string (reverse_string s) = s.
Proof.
  unfold reverse_string.
  by rewrite list_ascii_of_string_of_list_ascii, rev_involutive,
    string_of_list_ascii_of_string.
Qed.

Lemma strings_TrimSpace_id (s : string) :
  beginsWithSpace s = false -> endsWithSpace s = false -> strings_TrimSpace s = s.
Proof.
  unfold beginsWithSpace, endsWithSpace, strings_TrimSpace, trimLeftSpace, trimRightSpace.
  intros Hb He.
  assert (Hleft : trimLeftLoop (String.length s) spaceRunes s = s).
  { destruct (String.length s); [done|]. cbn [trimLeftLoop].
    by destruct (cutAnyPrefix spaceRunes s). }
  rewrite Hleft.
  assert (Hright : trimLeftLoop (String.length s) (map reverse_string spaceRunes)
                     (reverse_string s) = reverse_string s).
  { destruct (String.length s); [done|]. cbn [trimLeftLoop].
    by destruct (cutAnyPrefix (map reverse_string spaceRunes) (reverse_string s)). }
  rewrite Hright. apply reverse_string_involutive.
Qed.

(** C9, as the code has it: with Make and Model both given and different
    the result is Make followed by Model in parentheses; with both the same
    it is Make; with one of them empty it is the other one; each time
    without white space at the ends, so that a value that has none at its
    ends is returned as it is; "Canon" and "Canon" give "Canon"; "Canon"
    and "EOS 5D" give "Canon (EOS 5D)". *)
Theorem GetFullCameraName_combines (meta : ExifToolMetadata) :
  let make := Get meta "Make" in
  let model := Get meta "Model" in
  (make <> "" -> model <> "" -> model <> make ->
     GetFullCameraName meta = strings_TrimSpace (make +:+ " (" +:+ model +:+ ")"))
  /\ (model = make -> GetFullCameraName meta = strings_TrimSpace make)
  /\ (model = "" -> GetFullCameraName meta = strings_TrimSpace make)
  /\ (make = "" -> GetFullCameraName meta = strings_TrimSpace model)
  /\ (model = "" -> beginsWithSpace make = false -> endsWithSpace make = false ->
      GetFullCameraName meta = make)
  /\ (make = "" -> beginsWithSpace model = false -> endsWithSpace model = false ->
      GetFullCameraName meta = model)
  /\ (make = "Canon" -> model = "Canon" -> GetFullCameraName meta = "Canon")
  /\ (make = "Canon" -> model = "EOS 5D" -> GetFullCameraName meta = "Canon (EOS 5D)").
Proof.
  intros make model.
  assert (Hcases :
    GetFullCameraName meta =
      strings_TrimSpace
        (if String.eqb make "" then model
         else if String.eqb model "" || String.eqb model make then make
              else make +:+ " (" +:+ model +:+ ")")).
  { unfold GetFullCameraName. fold make model. clearbody make model.
    destruct (String.eqb_spec make "") as [->|Hmake]; cbn [negb].
    - by destruct (String.eqb_spec model "") as [->|Hmodel].
    - destruct (String.eqb_spec model ""), (String.eqb_spec model make); cbn; try done.
      by destruct (String.eqb_spec make ""). }
  rewrite Hcases. clear Hcases. clearbody make model.
  split; [|split; [|split; [|split; [|split; [|split; [|split]]]]]].
  - intros Hmake Hmodel Hne.
    destruct (String.eqb_spec make ""), (String.eqb_spec model ""),
      (String.eqb_spec model make); done.
  - intros ->. rewrite String.eqb_refl, orb_true_r. by destruct (String.eqb make "").
  - intros ->. cbn. by destruct (String.eqb_spec make "") as [->|].
  - intros ->. done.
  - intros -> Hb He. cbn. rewrite <- (strings_TrimSpace_id make Hb He) at 3.
    by destruct (String.eqb_spec make "") as [->|].
  - intros -> Hb He. cbn. by apply strings_TrimSpace_id.
  - intros -> ->. done.
  - intros -> ->. done.
Qed.

End MetadataProperties.

(** ** The scanner *)

Lemma Read_pending (r r' : Reader) (space : nat) (bytes : list byte) (err : option error) :
  Read r space = (r', bytes, err) ->
  match err with
  | None => (pendingBytes r' + length bytes)%nat = pendingBytes r
  | Some _ => bytes = [] /\ r' = r
  end.
Proof.
  unfold Read, pendingBytes. destruct r as [[|c cs] closing]; cbn.
  - by intros [= <- <- <-].
  - destruct (decide (length c <= space)%nat) as [Hle|Hgt]; intros [= <- <- <-]; cbn.
    + lia.
    + rewrite length_drop, length_take. lia.
Qed.

Lemma setErr_sets (s : Scanner) (e : error) :
  scanErr s = None -> scanErr (setErr s e) = Some e.
Proof. unfold setErr. by intros ->. Qed.

Lemma setErr_IsError (s : Scanner) (e : error) : IsError (scanErr (setErr s e)) = true.
Proof.
  unfold setErr. destruct (scanErr s) as [old|] eqn:Hs; [|done].
  destruct (negb (error_eqb old io_EOF)); [by rewrite Hs | done].
Qed.

(** The reading loop ends with an error set or with bytes taken from the
    reader. *)
Lemma readLoop_progress (more : nat) (s : Scanner) :
  IsError (scanErr (readLoop more s)) = true
  \/ (pendingBytes (rd (readLoop more s)) < pendingBytes (rd s))%nat.
Proof.
  revert s. induction more as [|more IH]; intros s; cbn [readLoop];
    destruct (Read (rd s) (bufLen s - (start s + length (buffered s)))) as [[r' bytes] err] eqn:Hread;
    apply Read_pending in Hread;
    (destruct err as [e|]; [left; apply setErr_IsError|]);
    (destruct bytes as [|b bytes]; [|right; cbn in *; lia]).
  - left. apply setErr_IsError.
  - match goal with |- context [readLoop more ?s1] => destruct (IH s1) as [?|Hlt] end;
      [by left | right]. cbn in *. lia.
Qed.

(** When the first half of a turn goes on, the reader and the error are as
    they were. *)
Lemma tryToken_goes_on (split : SplitFunc) (s s1 : Scanner) :
  tryToken split s = inr s1 -> rd s1 = rd s /\ scanErr s1 = scanErr s.
Proof.
  unfold tryToken.
  destruct (negb (length (buffered s) =? 0)%nat || IsError (scanErr s));
    [|by intros [= <-]].
  destruct (split (buffered s) (IsError (scanErr s))) as [[advance tok] [e|]].
  { by destruct (error_eqb e ErrFinalToken). }
  destruct (advance <? 0); [done|].
  destruct (len (buffered s) <? advance); [done|].
  destruct tok as [tok|]; [|by intros [= <-]].
  cbn [scanErr empties].
  destruct (negb (IsError (scanErr s)) || (0 <? advance)); [done|].
  by destruct (maxConsecutiveEmptyReads <? S (empties s))%nat.
Qed.

(** With an error set, the second half of a turn returns. *)
Lemma readMore_after_error (s : Scanner) :
  IsError (scanErr s) = true -> exists returned, readMore s = inl returned.
Proof. intros He. unfold readMore. rewrite He. eauto. Qed.

(** Without one, it returns, or it has set an error or taken bytes from the
    reader. *)
Lemma readMore_progress (s s' : Scanner) :
  readMore s = inr s' ->
  IsError (scanErr s') = true \/ (pendingBytes (rd s') < pendingBytes (rd s))%nat.
Proof.
  unfold readMore. generalize maxConsecutiveEmptyReads. intros more.
  destruct (IsError (scanErr s)); [done|].
  cbv zeta.
  destruct (_ =? bufLen s)%nat.
  - destruct (_ || _); [done|]. intros [= <-].
    match goal with |- context [readLoop more ?s1] => apply (readLoop_progress more s1) end.
  - intros [= <-].
    match goal with |- context [readLoop more ?s1] => apply (readLoop_progress more s1) end.
Qed.

(** A turn that starts with an error set is the last one. *)
Lemma scanTurn_after_error (split : SplitFunc) (s : Scanner) :
  IsError (scanErr s) = true -> exists returned, scanTurn split s = inl returned.
Proof.
  intros He. unfold scanTurn.
  destruct (tryToken split s) as [returned|s1] eqn:Htry; [eauto|].
  apply tryToken_goes_on in Htry as [_ Herr].
  apply readMore_after_error. by rewrite Herr.
Qed.

(** A turn that does not return has set an error or taken bytes from the
    reader. *)
Lemma scanTurn_progress (split : SplitFunc) (s s' : Scanner) :
  scanTurn split s = inr s' ->
  IsError (scanErr s') = true \/ (pendingBytes (rd s') < pendingBytes (rd s))%nat.
Proof.
  unfold scanTurn.
  destruct (tryToken split s) as [returned|s1] eqn:Htry; [done|].
  apply tryToken_goes_on in Htry as [Hrd _]. rewrite <- Hrd.
  apply readMore_progress.
Qed.

Lemma scanLoop_returns_within (split : SplitFunc) (n : nat) (s : Scanner) :
  (pendingBytes (rd s) <= n)%nat ->
  exists returned, scanLoop (n + 2) split s = Some returned.
Proof.
  revert s. induction n as [|n IH]; intros s Hn.
  - cbn [Nat.add scanLoop].
    destruct (IsError (scanErr s)) eqn:He.
    + destruct (scanTurn_after_error split s He) as [r ->]. eauto.
    + destruct (scanTurn split s) as [r|s'] eqn:Hturn; [eauto|].
      destruct (scanTurn_progress split s s' Hturn) as [He'|Hlt]; [|lia].
      destruct (scanTurn_after_error split s' He') as [r ->]. eauto.
  - replace (S n + 2)%nat with (S (n + 2)) by lia. cbn [scanLoop].
    destruct (IsError (scanErr s)) eqn:He.
    + destruct (scanTurn_after_error split s He) as [r ->]. eauto.
    + destruct (scanTurn split s) as [r|s'] eqn:Hturn; [eauto|].
      destruct (scanTurn_progress split s s' Hturn) as [He'|Hlt].
      * replace (n + 2)%nat with (S (n + 1)) by lia. cbn [scanLoop].
        destruct (scanTurn_after_error split s' He') as [r ->]. eauto.
      * apply IH. lia.
Qed.

(** Every scan returns: the turns that [Scan] allows itself are enough. *)
Lemma Scan_returns (split : SplitFunc) (s : Scanner) :
  scanDone s = false ->
  exists returned,
    scanLoop (scanFuel s) split s = Some returned /\ Scan split s = returned.
Proof.
  intros Hdone. unfold Scan. rewrite Hdone.
  destruct (scanLoop_returns_within split (pendingBytes (rd s)) s) as [r Hr]; [lia|].
  unfold scanFuel. rewrite Hr. eauto.
Qed.

(** ** The scanner of a session

    With the framing function of the session as its split function, and a
    reader that delivers bytes or an error, a scan that returns true leaves
    no error in the scanner: an error is met only when no ready token is in
    the data, and then the scan returns false. *)

Lemma tokenFree_nil (config : ExiftoolConfig) :
  readyToken config <> [] -> tokenFree config [].
Proof.
  intros Hne k Hk. destruct (occurs_at_bound _ _ _ Hk) as [Hb|]; [|done].
  destruct (readyToken config); [done|]. cbn in Hb. lia.
Qed.

(** The two ways in which the framing function answers. *)
Lemma splitReadyToken_cases (config : ExiftoolConfig) (data : list byte) (atEOF : bool) :
  configReady config -> len data <= maxInt ->
  (tokenFree config data
   /\ splitReadyToken config data atEOF
      = if atEOF && (0 <? len data) then (0, Some data, Some noFinalToken)
        else (0, None, None))
  \/ (exists idx record,
        occurs_at data (readyToken config) idx
        /\ splitReadyToken config data atEOF
           = (Z.of_nat idx + len (readyToken config), Some record, None)
        /\ 0 < Z.of_nat idx + len (readyToken config) <= len data).
Proof.
  intros [Hlen Hne] Hmax.
  destruct (index_from_cases data (readyToken config) 0)
    as [[Hidx Hno]|[(k & Hk & _)|?]]; [| |lia].
  - left. split; [done|]. unfold splitReadyToken, bytes_Index. by rewrite Hidx.
  - right. exists k, (take k data).
    assert (Hfit : 0 < Z.of_nat k + len (readyToken config) <= len data).
    { destruct Hk as [Hocc _].
      destruct (occurs_at_bound _ _ _ Hocc) as [Hb|]; [|done].
      unfold len. destruct (readyToken config); [done|]. cbn [length] in *. lia. }
    split; [apply Hk|]. split; [|done].
    apply splitReadyToken_at; [done|lia|done].
Qed.

Lemma setErr_fields (s : Scanner) (e : error) :
  rd (setErr s e) = rd s /\ buffered (setErr s e) = buffered s
  /\ start (setErr s e) = start s /\ bufLen (setErr s e) = bufLen s
  /\ scanDone (setErr s e) = scanDone s.
Proof. unfold setErr. by destruct (match scanErr s with Some _ => _ | None => _ end). Qed.

Lemma setErr_inBounds (s : Scanner) (e : error) : inBounds s -> inBounds (setErr s e).
Proof.
  unfold inBounds. destruct (setErr_fields s e) as (_ & -> & -> & -> & _). done.
Qed.

Lemma IsError_false (err : option error) : IsError err = false -> err = None.
Proof. by destruct err. Qed.

(** The first half of a turn, on a scanner of a session. *)
Lemma tryToken_settled (config : ExiftoolConfig) (s : Scanner) :
  configReady config -> inBounds s ->
  (IsError (scanErr s) = true -> tokenFree config (buffered s)) ->
  match tryToken (splitReadyToken config) s with
  | inl (ScanTrue, s') =>
      scanErr s' = None /\ inBounds s' /\ scanDone s' = scanDone s
  | inl (ScanFalse, s') =>
      IsError (scanErr s') = true /\ tokenFree config (buffered s')
      /\ inBounds s' /\ scanDone s' = scanDone s
  | inl (ScanPanic _, _) => False
  | inr s' =>
      scanErr s' = scanErr s /\ inBounds s' /\ scanDone s' = scanDone s
      /\ tokenFree config (buffered s')
  end.
Proof.
  intros Hready [Hfit Hmax] Hfree. unfold tryToken.
  assert (Hlen : len (buffered s) <= maxInt) by (unfold len; lia).
  destruct (negb (length (buffered s) =? 0)%nat || IsError (scanErr s)) eqn:Hcond.
  2:{ apply orb_false_iff in Hcond as [Hempty _].
      apply negb_false_iff, Nat.eqb_eq, nil_length_inv in Hempty.
      split_and!; try done. rewrite Hempty. apply tokenFree_nil, Hready. }
  destruct (splitReadyToken_cases config (buffered s) (IsError (scanErr s)) Hready Hlen)
    as [[Hno ->]|(idx & record & Hocc & -> & Hadv)].
  - destruct (IsError (scanErr s) && (0 <? len (buffered s))).
    + change (error_eqb noFinalToken ErrFinalToken) with false. cbv iota.
      destruct (setErr_fields s noFinalToken) as (_ & Hb & _ & _ & Hd).
      rewrite Hb. split_and!; try done.
      * apply setErr_IsError.
      * by apply setErr_inBounds.
    + change (0 <? 0) with false. cbv iota.
      destruct (Z.ltb_spec (len (buffered s)) 0) as [Hneg|_];
        [pose proof (len_nonneg (buffered s)); lia|].
      cbn. rewrite drop_0. split_and!; try done.
      unfold inBounds. cbn. split; [lia|done].
  - destruct (Z.ltb_spec (Z.of_nat idx + len (readyToken config)) 0) as [|_]; [lia|].
    destruct (Z.ltb_spec (len (buffered s)) (Z.of_nat idx + len (readyToken config)))
      as [|_]; [lia|].
    cbn [scanErr].
    destruct (IsError (scanErr s)) eqn:He.
    + by destruct (Hfree eq_refl idx).
    + apply IsError_false in He. rewrite He. cbn.
      split_and!; try done.
      unfold inBounds. cbn. rewrite length_drop. unfold len in *. split; [lia|done].
Qed.

Lemma Read_length (r r' : Reader) (space : nat) (bytes : list byte) (err : option error) :
  Read r space = (r', bytes, err) -> (length bytes <= space)%nat.
Proof.
  unfold Read. destruct (chunks r) as [|c cs]; [intros [= _ <- _]; cbn; lia|].
  destruct (decide (length c <= space)%nat); intros [= _ <- _]; [done|].
  rewrite length_take. lia.
Qed.

(** The reading loop keeps the data within bounds, and leaves the data as it
    was when it ends with an error. *)
Lemma readLoop_settled (more : nat) (s : Scanner) :
  scanErr s = None -> inBounds s ->
  inBounds (readLoop more s) /\ scanDone (readLoop more s) = scanDone s
  /\ (IsError (scanErr (readLoop more s)) = true ->
      buffered (readLoop more s) = buffered s).
Proof.
  revert s. induction more as [|more IH]; intros s Herr [Hfit Hmax]; cbn [readLoop];
    destruct (Read (rd s) (bufLen s - (start s + length (buffered s))))
      as [[r' bytes] err] eqn:Hread;
    pose proof (Read_length _ _ _ _ _ Hread) as Hspace;
    apply Read_pending in Hread;
    (destruct err as [e|];
     [destruct Hread as [-> _];
      match goal with |- context [setErr ?s1 e] =>
        destruct (setErr_fields s1 e) as (_ & Hb & Hs & Hl & Hd)
      end;
      unfold inBounds; rewrite Hb, Hs, Hl, Hd; cbn; rewrite app_nil_r; done|]);
    (destruct bytes as [|b bytes];
     [|unfold inBounds; cbn in *; rewrite Herr, length_app; cbn;
       split_and!; [lia|done|done|done]]).
  - match goal with |- context [setErr ?s1 io_ErrNoProgress] =>
      destruct (setErr_fields s1 io_ErrNoProgress) as (_ & Hb & Hs & Hl & Hd)
    end.
    unfold inBounds. rewrite Hb, Hs, Hl, Hd. cbn. rewrite app_nil_r. done.
  - match goal with |- context [readLoop more ?s1] =>
      destruct (IH s1) as (Hin & Hdone & Hsame)
    end; [done| |].
    + unfold inBounds. cbn. by rewrite app_nil_r.
    + split_and!; [done|done|].
      intros He. rewrite (Hsame He). cbn. by rewrite app_nil_r.
Qed.

(** The second half of a turn, on a scanner of a session. *)
Lemma readMore_settled (config : ExiftoolConfig) (s : Scanner) :
  readyToken config <> [] -> inBounds s -> tokenFree config (buffered s) ->
  match readMore s with
  | inl (returned, s') =>
      returned = ScanFalse /\ IsError (scanErr s') = true
      /\ tokenFree config (buffered s') /\ inBounds s' /\ scanDone s' = scanDone s
  | inr s' =>
      inBounds s' /\ scanDone s' = scanDone s
      /\ (IsError (scanErr s') = true -> tokenFree config (buffered s'))
  end.
Proof.
  intros Hne [Hfit Hmax] Hfree. unfold readMore.
  generalize maxConsecutiveEmptyReads. intros more.
  destruct (IsError (scanErr s)) eqn:He.
  { split_and!; try done; [by apply tokenFree_nil | unfold inBounds; cbn; lia]. }
  apply IsError_false in He. cbv zeta.
  set (start' := if ((0 <? start s)%nat && _) then 0%nat else start s).
  assert (Hstart : (start' <= start s)%nat) by (subst start'; case_match; lia).
  clearbody start'.
  destruct (Nat.eqb_spec (start' + length (buffered s)) (bufLen s)) as [Hfull|_].
  - destruct ((maxTokenSize s <=? Z.of_nat (bufLen s))
              || (maxInt / 2 <? Z.of_nat (bufLen s))) eqn:Hlong.
    + match goal with |- context [setErr ?s1 ErrTooLong] =>
        destruct (setErr_fields s1 ErrTooLong) as (_ & Hb & Hs & Hl & Hd);
        pose proof (setErr_IsError s1 ErrTooLong) as Hset
      end.
      unfold inBounds. rewrite Hb, Hs, Hl, Hd. cbn. split_and!; try done. lia.
    + apply orb_false_iff in Hlong as [Hsize Hhalf].
      apply Z.leb_gt in Hsize. apply Z.ltb_ge in Hhalf.
      set (newSize := Z.min _ _).
      assert (Hnew : Z.of_nat (bufLen s) < newSize <= maxInt).
      { subst newSize. revert Hhalf. unfold maxInt, startBufSize.
        destruct (Z.eqb_spec (Z.of_nat (bufLen s) * 2) 0); intros Hhalf;
          Z.div_mod_to_equations; lia. }
      clearbody newSize.
      match goal with |- context [readLoop more ?s1] =>
        destruct (readLoop_settled more s1) as (Hin & Hdone & Hsame)
      end; [done| |].
      * unfold inBounds. cbn. lia.
      * split_and!; [done|done|]. intros Herr. by rewrite (Hsame Herr).
  - match goal with |- context [readLoop more ?s1] =>
      destruct (readLoop_settled more s1) as (Hin & Hdone & Hsame)
    end; [done| |].
    + unfold inBounds. cbn. lia.
    + split_and!; [done|done|]. intros Herr. by rewrite (Hsame Herr).
Qed.

(** A scan of a session leaves its scanner as a scanner of a session; it
    does not panic; after it returned true no error is set, and after it
    returned false an error is set. *)
Lemma scanLoop_settled (config : ExiftoolConfig) (fuel : nat) (s s' : Scanner)
    (returned : ScanReturn) :
  configReady config -> settled config s ->
  scanLoop fuel (splitReadyToken config) s = Some (returned, s') ->
  settled config s'
  /\ match returned with
     | ScanTrue => scanErr s' = None
     | ScanFalse => IsError (scanErr s') = true
     | ScanPanic _ => False
     end.
Proof.
  intros Hready. revert s. induction fuel as [|fuel IH]; intros s (Hdone & Hin & Hfree);
    [done|].
  cbn [scanLoop]. unfold scanTurn.
  pose proof (tryToken_settled config s Hready Hin Hfree) as Htry.
  destruct (tryToken (splitReadyToken config) s) as [[[| |msg] s1]|s1].
  - intros [= <- <-]. destruct Htry as (Herr & Hin1 & Hdone1).
    split; [|done]. split; [congruence|]. split; [done|]. by rewrite Herr.
  - intros [= <- <-]. destruct Htry as (Herr & Hfree1 & Hin1 & Hdone1).
    split; [|done]. split; [congruence|]. done.
  - done.
  - destruct Htry as (Herr & Hin1 & Hdone1 & Hfree1).
    pose proof (readMore_settled config s1 (proj2 Hready) Hin1 Hfree1) as Hmore.
    destruct (readMore s1) as [[r2 s2]|s2].
    + intros [= <- <-]. destruct Hmore as (-> & Herr2 & Hfree2 & Hin2 & Hdone2).
      split; [|done]. split; [congruence|]. done.
    + destruct Hmore as (Hin2 & Hdone2 & Hfree2). apply IH.
      split; [congruence|]. done.
Qed.

Lemma Scan_settled (config : ExiftoolConfig) (s : Scanner) :
  configReady config -> settled config s ->
  settled config (Scan (splitReadyToken config) s).2
  /\ match (Scan (splitReadyToken config) s).1 with
     | ScanTrue => scanErr (Scan (splitReadyToken config) s).2 = None
     | ScanFalse => IsError (scanErr (Scan (splitReadyToken config) s).2) = true
     | ScanPanic _ => False
     end.
Proof.
  intros Hready Hsettled.
  destruct (Scan_returns (splitReadyToken config) s (proj1 Hsettled))
    as ([returned s'] & Hloop & ->).
  by apply (scanLoop_settled config (scanFuel s) s).
Qed.

Lemma NewScanner_settled (config : ExiftoolConfig) (r : Reader) :
  settled config (NewScanner r).
Proof. unfold settled, inBounds, maxInt. cbn. repeat split; [lia|lia|done]. Qed.

(** ** ReadMetadata *)

Section SessionProperties.
Context `{Externals}.

(** A scan that returns false ends the request with the message of a missing
    answer, whatever the error of the scanner is. *)
Lemma ReadMetadata_scan_false (et : Exiftool) (file : string) (scanner : Scanner) :
  json_Unmarshal (bytes_of "{}") <> inl [] ->
  Scan (splitReadyToken (config et)) (scanMergedOut (io et)) = (ScanFalse, scanner) ->
  (ReadMetadata et file).2
  = Err (Errorf (fmt_Sprintf0 ("error reading exif data:" +:+ file))).
Proof.
  intros Hfirst Hscan. unfold ReadMetadata, Parse at 1.
  destruct (json_Unmarshal (bytes_of "{}")) as [[|first rest]|err]; [done|..];
    by rewrite Hscan.
Qed.

(** The error of the scanner is reported, wrapped, when the scan returned
    true. *)
Lemma ReadMetadata_scan_true_error (et : Exiftool) (file : string) (scanner : Scanner)
    (e : error) :
  json_Unmarshal (bytes_of "{}") <> inl [] ->
  Scan (splitReadyToken (config et)) (scanMergedOut (io et)) = (ScanTrue, scanner) ->
  Scanner_Err scanner = Some e ->
  (ReadMetadata et file).2
  = Err (Wrapf ("error while reading stdMergedOut: " +:+ Error e) e).
Proof.
  intros Hfirst Hscan Herr. unfold ReadMetadata, Parse at 1.
  destruct (json_Unmarshal (bytes_of "{}")) as [[|first rest]|err]; [done|..];
    by rewrite Hscan, Herr.
Qed.

(** C2, the code on a session whose reader delivers bytes or an error: the
    branch of [ReadMetadata] that wraps the error of the scanner is never
    taken.  Whenever the scanner holds an error after the scan step, the scan
    has returned false and the request ends with the message of a missing
    answer, which wraps nothing.  The scanner is left as the next request
    expects it. *)
Theorem ReadMetadata_scanner_error (et : Exiftool) (file : string) :
  configReady (config et) -> settled (config et) (scanMergedOut (io et)) ->
  json_Unmarshal (bytes_of "{}") <> inl [] ->
  config (ReadMetadata et file).1.1 = config et
  /\ settled (config et) (scanMergedOut (io (ReadMetadata et file).1.1))
  /\ (forall e,
        Scanner_Err (scanMergedOut (io (ReadMetadata et file).1.1)) = Some e ->
        (ReadMetadata et file).2
        = Err (Errorf (fmt_Sprintf0 ("error reading exif data:" +:+ file)))).
Proof.
  intros Hready Hsettled Hfirst.
  pose proof (Scan_settled (config et) (scanMergedOut (io et)) Hready Hsettled)
    as [Hafter Hreturned].
  unfold ReadMetadata.
  destruct (Parse _ (bytes_of "{}")) as [meta outcome] eqn:Hparse.
  assert (Hout : forall msg, outcome <> Panic msg).
  { intros msg ->. apply Hfirst. eapply Parse_Panic_inv. by rewrite Hparse. }
  destruct (Scan (splitReadyToken (config et)) (scanMergedOut (io et)))
    as [[| |msg] scanner]; cbn in Hafter, Hreturned; [| |done].
  - unfold Scanner_Err. rewrite Hreturned.
    destruct outcome as [|e0|msg0]; [| |by destruct (Hout msg0)];
      destruct (Parse meta _); cbn; by rewrite ?Hreturned.
  - destruct outcome as [|e0|msg0]; [| |by destruct (Hout msg0)]; done.
Qed.

(** C10: whatever the session and the path, and however the call ends, the
    record of [ReadMetadata] has the requested path as its source file; and
    [Parse] leaves the source file of a record as it is, whatever it
    parses. *)
Theorem ReadMetadata_SourceFile (et : Exiftool) (file : string) :
  SourceFile (ReadMetadata et file).1.2 = file
  /\ (forall (meta : ExifToolMetadata) (jsonBytes : list byte),
        SourceFile (Parse meta jsonBytes).1 = SourceFile meta).
Proof.
  split; [|apply Parse_SourceFile].
  unfold ReadMetadata.
  match goal with |- context [Parse ?m0 (bytes_of "{}")] =>
    pose proof (Parse_SourceFile m0 (bytes_of "{}")) as Hfirst;
    destruct (Parse m0 (bytes_of "{}")) as [meta first]
  end.
  cbn in Hfirst.
  assert (Hrest :
    SourceFile
      (let '(scanned, scanner) :=
         Scan (splitReadyToken (config et)) (scanMergedOut (io et)) in
       match scanned with
       | ScanTrue =>
           match Scanner_Err scanner with
           | Some e => meta
           | None => (Parse meta (default [] (Scanner_Bytes scanner))).1
           end
       | _ => meta
       end) = file).
  { destruct (Scan _ _) as [[| |msg] scanner]; [|done..].
    destruct (Scanner_Err scanner); [done|]. by rewrite Parse_SourceFile. }
  destruct first as [|e|msg]; [|  |done];
    destruct (Scan _ _) as [[| |msg'] scanner]; try done;
    destruct (Scanner_Err scanner); try done;
    by destruct (Parse meta _).
Qed.

End SessionProperties.

(** ** The functions at work *)

Section Runs.
Import Sample Cases.
#[local] Existing Instance externals.

(** The framing function on a record followed by two ready tokens. *)
Lemma splitReadyToken_found_witness :
  splitReadyToken (UseDefaults "linux") twoTokens false
  = (10, Some (bytes_of "[]"), None)
  /\ splitReadyToken (UseDefaults "linux") (drop 10 twoTokens) true
     = (8, Some [], None).
Proof.
  assert (Hfirst : first_occurrence twoTokens (readyToken (UseDefaults "linux")) 2).
  { split; [done|]. intros [|[|j]] Hj; [done..|lia]. }
  destruct (splitReadyToken_found (UseDefaults "linux") twoTokens false 2)
    as (Hsplit & _ & _ & Hnext); [done..|].
  split; [exact Hsplit|].
  apply (Hnext true). by exists [].
Defined.

(** The framing function on a buffer without a ready token. *)
Lemma splitReadyToken_not_found_witness :
  splitReadyToken (UseDefaults "linux") (bytes_of "[{") true
  = (0, Some (bytes_of "[{"), Some noFinalToken)
  /\ splitReadyToken (UseDefaults "linux") (bytes_of "[{") false = (0, None, None).
Proof.
  assert (Hno : forall k, ~ occurs_at (bytes_of "[{") (readyToken (UseDefaults "linux")) k).
  { intros k Hk. destruct (occurs_at_bound _ _ _ Hk) as [Hb|]; [|done].
    change (k + 8 <= 2)%nat in Hb. lia. }
  split.
  - by apply (splitReadyToken_not_found (UseDefaults "linux") (bytes_of "[{") true Hno).
  - by apply (splitReadyToken_not_found (UseDefaults "linux") (bytes_of "[{") false Hno).
Defined.


(** [GetEarliestCreationDate] on a record with a date of 1970 and one of
    2010. *)
Lemma GetEarliestCreationDate_earliest_witness :
  GetEarliestCreationDate epochAnd2010 = Fatal ["a.jpg"] ExifCreationDateNotFoundError.
Proof.
  apply (proj2 (proj2 (proj2 (proj2 (GetEarliestCreationDate_earliest epochAnd2010))))
           t1970 t2010);
    [by left | by unfold zoneBounded | by unfold zoneBounded | by vm_compute | done].
Defined.

(** [Parse] on a text that it accepts and on one that it refuses. *)
Lemma Parse_raw_json_witness :
  DataMapJson (Parse (fresh "a.jpg") (bytes_of (json "[{'Make':'Canon'}]"))).1
  = json "[{'Make':'Canon'}]"
  /\ (Parse (fresh "a.jpg") (bytes_of "{}")).1 = fresh "a.jpg".
Proof.
  split.
  - by apply (Parse_raw_json (fresh "a.jpg") (bytes_of (json "[{'Make':'Canon'}]"))).
  - by eapply (proj2 (Parse_raw_json (fresh "a.jpg") (bytes_of "{}"))).
Defined.

(** [GetMediaDuration] on an approximate duration, and on a tab. *)
Lemma GetMediaDuration_first_witness :
  GetMediaDuration approxDuration = "10.5s"
  /\ GetMediaDuration tabDuration = strings_TrimSpace (String (chr 9) "").
Proof.
  destruct (GetMediaDuration_first approxDuration) as (_ & _ & _ & _ & _ & Happrox).
  destruct (GetMediaDuration_first tabDuration) as (Htab & _).
  split; [by apply Happrox | by apply Htab].
Defined.

(** [GetFullCameraName] on a make with a model, and on a make alone. *)
Lemma GetFullCameraName_combines_witness :
  GetFullCameraName canonEOS = "Canon (EOS 5D)"
  /\ GetFullCameraName spacedMake = strings_TrimSpace "Canon ".
Proof.
  destruct (GetFullCameraName_combines canonEOS) as (_ & _ & _ & _ & _ & _ & _ & Hboth).
  destruct (GetFullCameraName_combines spacedMake) as (_ & _ & Hmake & _).
  split; [by apply Hboth | by apply Hmake].
Defined.

(** C1, the claim at a record with a date of 1970 and one of 2010: both are
    parsed, and the call is fatal; the date of 2010 is not returned. *)
Lemma GetEarliestCreationDate_epoch_and_2010 :
  collectCandidates epochAnd2010 = [t1970; t2010]
  /\ Year t1970 = 1970 /\ Year t2010 = 2010
  /\ GetEarliestCreationDate epochAnd2010 = Fatal ["a.jpg"] ExifCreationDateNotFoundError
  /\ GetEarliestCreationDate epochAnd2010 <> Returned [] t2010.
Proof. by vm_compute. Qed.

(** C4, the claim at a text that [Parse] refuses: the raw JSON of the record
    is not the text. *)
Lemma Parse_error_leaves_raw_json :
  (exists e, (Parse (fresh "a.jpg") (bytes_of "{}")).2 = Err e)
  /\ DataMapJson (Parse (fresh "a.jpg") (bytes_of "{}")).1 = ""
  /\ DataMapJson (Parse (fresh "a.jpg") (bytes_of "{}")).1 <> string_of (bytes_of "{}").
Proof. split; [by eexists | by vm_compute]. Qed.

(** C8, the claim at a Duration that is a tab: it is not empty without
    "(approx)" and spaces, and yet the result is empty; it is neither what
    is left of the Duration nor the MediaDuration that follows. *)
Lemma GetMediaDuration_tab :
  Get tabDuration "Duration" = String (chr 9) ""
  /\ Get tabDuration "MediaDuration" = "5s"
  /\ describedMediaDuration tabDuration = String (chr 9) ""
  /\ GetMediaDuration tabDuration = ""
  /\ GetMediaDuration tabDuration <> describedMediaDuration tabDuration
  /\ GetMediaDuration tabDuration <> Get tabDuration "MediaDuration".
Proof. by vm_compute. Qed.

(** C9, the claim at a Make that ends with a space, without a Model: the
    result is not the Make. *)
Lemma GetFullCameraName_spaced_make :
  Get spacedMake "Make" = "Canon "
  /\ Get spacedMake "Model" = ""
  /\ GetFullCameraName spacedMake = "Canon"
  /\ GetFullCameraName spacedMake <> Get spacedMake "Make".
Proof. by vm_compute. Qed.

(** A stream that breaks: the scanner holds the error of the read, and the
    request ends with the message of a missing answer, which does not wrap
    it. *)
Lemma ReadMetadata_read_error_unreported :
  Scanner_Err (scanMergedOut (io (ReadMetadata failing "a.jpg").1.1))
  = Some (LibError "io: read/write on closed pipe")
  /\ (ReadMetadata failing "a.jpg").2 = Err (Errorf "error reading exif data:a.jpg")
  /\ errors_Is (Some (Errorf "error reading exif data:a.jpg"))
       (LibError "io: read/write on closed pipe") = false.
Proof.
  split; [by vm_compute|]. split; [|by vm_compute].
  assert (Hfirst : json_Unmarshal (bytes_of "{}") <> inl []) by (by vm_compute).
  apply (proj2 (proj2 (ReadMetadata_scanner_error failing "a.jpg"
                         (UseDefaults_readyToken "linux")
                         (NewScanner_settled _ _) Hfirst))
           (LibError "io: read/write on closed pipe")).
  by vm_compute.
Defined.

(** Texts that are JSON and not an array of one object: the empty array and
    [null] end in a panic, in [Parse] and in a request that is answered so;
    an array of two objects is accepted. *)
Lemma Parse_empty_array_panics :
  (Parse (fresh "a.jpg") (bytes_of "[]")).2
  = Panic "runtime error: index out of range [0] with length 0"
  /\ (Parse (fresh "a.jpg") (bytes_of "null")).2
     = Panic "runtime error: index out of range [0] with length 0"
  /\ (ReadMetadata emptyAnswer "a.jpg").2
     = Panic "runtime error: index out of range [0] with length 0"
  /\ (Parse (fresh "a.jpg") (bytes_of "[{},{}]")).2 = Ok.
Proof.
  split.
  - by rewrite (proj1 (Parse_wrong_length (fresh "a.jpg") (bytes_of "[]")) eq_refl).
  - split; [|by vm_compute].
    by rewrite (proj1 (Parse_wrong_length (fresh "a.jpg") (bytes_of "null")) eq_refl).
Defined.

(** A request that is answered with the record of another file: the record
    has the requested path, and the answer keeps its own tag. *)
Example ReadMetadata_answering :
  (ReadMetadata answering "a.jpg").2 = Ok
  /\ SourceFile (ReadMetadata answering "a.jpg").1.2 = "a.jpg"
  /\ Get (ReadMetadata answering "a.jpg").1.2 "SourceFile" = "b.jpg"
  /\ GetFullCameraName (ReadMetadata answering "a.jpg").1.2 = "Canon".
Proof. by vm_compute. Qed.

End Runs.

(** ** The error of a date that was rewritten *)




(** * More of the source file *)

(** ** Records across reads *)

Lemma occurs_at_app (data rest sep : list byte) (k : nat) :
  (k + length sep <= length data)%nat ->
  occurs_at (data ++ rest) sep k <-> occurs_at data sep k.
Proof.
  intros Hfit. unfold occurs_at.
  rewrite drop_app_le by lia. rewrite take_app_le; [done|].
  rewrite length_drop. lia.
Qed.

(** The framing function finds the first occurrence, or none. *)
Lemma splitReadyToken_first (config : ExiftoolConfig) (data : list byte) (atEOF : bool) :
  configReady config -> len data <= maxInt ->
  (tokenFree config data
   /\ splitReadyToken config data atEOF
      = if atEOF && (0 <? len data) then (0, Some data, Some noFinalToken)
        else (0, None, None))
  \/ (exists idx,
        first_occurrence data (readyToken config) idx
        /\ (idx + length (readyToken config) <= length data)%nat
        /\ (0 < length (readyToken config))%nat
        /\ splitReadyToken config data atEOF
           = (Z.of_nat (idx + length (readyToken config)), Some (take idx data), None)).
Proof.
  intros [Hlen Hne] Hmax.
  destruct (index_from_cases data (readyToken config) 0)
    as [[Hidx Hno]|[(k & Hk & _)|?]]; [| |lia].
  - left. split; [done|]. unfold splitReadyToken, bytes_Index. by rewrite Hidx.
  - right. exists k.
    assert (Hfit : (k + length (readyToken config) <= length data)%nat
                   /\ (0 < length (readyToken config))%nat).
    { destruct Hk as [Hocc _].
      destruct (occurs_at_bound _ _ _ Hocc) as [Hb|]; [|done].
      destruct (readyToken config); [done|]. cbn [length] in *. lia. }
    split; [done|]. split; [apply Hfit|]. split; [apply Hfit|].
    rewrite Nat2Z.inj_add. apply splitReadyToken_at; [done| |done].
    unfold len in *. lia.
Qed.

Lemma Read_concat (r r' : Reader) (space : nat) (bytes : list byte) (err : option error) :
  Read r space = (r', bytes, err) ->
  bytes ++ concat (chunks r') = concat (chunks r) /\ closing r' = closing r.
Proof.
  unfold Read. destruct r as [[|c cs] closing]; cbn.
  - by intros [= <- <- <-].
  - destruct (decide (length c <= space)%nat); intros [= <- <- <-]; cbn; [done|].
    by rewrite app_assoc, take_drop.
Qed.

Lemma Read_lively (r r' : Reader) (space : nat) (bytes : list byte) (err : option error) :
  Read r space = (r', bytes, err) -> lively r -> lively r'.
Proof.
  unfold Read, lively. destruct r as [[|c cs] closing]; cbn.
  - by intros [= <- <- <-].
  - destruct (decide (length c <= space)%nat) as [|Hgt]; intros [= <- <- <-] Hall; cbn.
    + by apply Forall_cons in Hall as [_ Hall].
    + apply Forall_cons in Hall as [_ Hall]. apply Forall_cons. split; [|done].
      intros Hnil. apply (f_equal length) in Hnil. rewrite length_drop in Hnil.
      cbn in Hnil. lia.
Qed.

(** From a lively reader that has not ended, a read into free space takes
    bytes. *)
Lemma Read_some (r : Reader) (space : nat) :
  lively r -> concat (chunks r) <> [] -> (0 < space)%nat ->
  exists r' b bytes, Read r space = (r', b :: bytes, None).
Proof.
  unfold Read, lively. destruct r as [[|c cs] closing]; cbn; [done|].
  intros Hall _ Hspace. apply Forall_cons in Hall as [Hc _].
  destruct c as [|b c]; [done|].
  destruct (decide (length (b :: c) <= space)%nat); [by eexists _, _, _|].
  destruct space as [|space]; [lia|]. cbn. by eexists _, _, _.
Qed.

(** The reading loop keeps the bytes to come, whatever it meets. *)
Lemma readLoop_future (more : nat) (s : Scanner) :
  future (readLoop more s) = future s
  /\ bufLen (readLoop more s) = bufLen s /\ start (readLoop more s) = start s
  /\ maxTokenSize (readLoop more s) = maxTokenSize s
  /\ (lively (rd s) -> lively (rd (readLoop more s))).
Proof.
  revert s. induction more as [|more IH]; intros s; cbn [readLoop];
    destruct (Read (rd s) (bufLen s - (start s + length (buffered s))))
      as [[r' bytes] err] eqn:Hread;
    pose proof (Read_lively _ _ _ _ _ Hread) as Hlive;
    apply Read_concat in Hread as [Hcat _];
    unfold future in *; rewrite <- Hcat;
    (destruct err as [e|];
     [match goal with |- context [setErr ?s1 e] =>
        destruct (setErr_fields s1 e) as (Hr & Hb & Hs & Hl & _);
        assert (Hm : maxTokenSize (setErr s1 e) = maxTokenSize s1)
          by (unfold setErr; by destruct (match scanErr s1 with Some _ => _ | None => _ end))
      end;
      rewrite Hr, Hb, Hs, Hl, Hm; cbn; by rewrite <- app_assoc|]);
    (destruct bytes as [|b bytes]; [|cbn; by rewrite <- app_assoc]).
  - match goal with |- context [setErr ?s1 io_ErrNoProgress] =>
      destruct (setErr_fields s1 io_ErrNoProgress) as (Hr & Hb & Hs & Hl & _);
      assert (Hm : maxTokenSize (setErr s1 io_ErrNoProgress) = maxTokenSize s1)
        by (unfold setErr; by destruct (match scanErr s1 with Some _ => _ | None => _ end))
    end.
    rewrite Hr, Hb, Hs, Hl, Hm. cbn. by rewrite <- app_assoc.
  - match goal with |- context [readLoop more ?s1] =>
      destruct (IH s1) as (Hf & Hl & Hs & Hm & Hlv)
    end.
    rewrite Hf, Hl, Hs, Hm. cbn. split_and!; try done.
    + by rewrite <- app_assoc.
    + intros Hrd. apply Hlv. cbn. by apply Hlive.
Qed.

(** With free space and bytes to come from a lively reader, the reading loop
    ends without an error and with more data. *)
Lemma readLoop_reads (more : nat) (s : Scanner) :
  scanErr s = None -> lively (rd s) -> concat (chunks (rd s)) <> [] ->
  (start s + length (buffered s) < bufLen s)%nat ->
  scanErr (readLoop more s) = None
  /\ (length (buffered s) < length (buffered (readLoop more s)))%nat.
Proof.
  intros Herr Hlive Hmore Hspace.
  destruct (Read_some (rd s) (bufLen s - (start s + length (buffered s))))
    as (r' & b & bytes & Hread); [done|done|lia|].
  destruct more; cbn [readLoop]; rewrite Hread; cbn; rewrite length_app; cbn;
    (split; [done|lia]).
Qed.

(** What the second half of a turn keeps when it goes on to read. *)
Lemma readMore_reads (s s' : Scanner) :
  scanErr s = None -> inBounds s -> readMore s = inr s' ->
  future s' = future s /\ maxTokenSize s' = maxTokenSize s
  /\ scanDone s' = scanDone s /\ inBounds s'
  /\ Z.of_nat (bufLen s') <= Z.max (Z.of_nat (bufLen s)) (maxTokenSize s)
  /\ (lively (rd s) -> lively (rd s'))
  /\ (IsError (scanErr s') = true -> buffered s' = buffered s)
  /\ (lively (rd s) -> concat (chunks (rd s)) <> [] ->
      scanErr s' = None /\ (length (buffered s) < length (buffered s'))%nat).
Proof.
  intros Herr [Hfit Hmax]. unfold readMore. rewrite Herr. cbn [IsError].
  generalize maxConsecutiveEmptyReads. intros more. cbv zeta.
  set (start' := if ((0 <? start s)%nat && _) then 0%nat else start s).
  assert (Hstart : (start' <= start s)%nat) by (subst start'; case_match; lia).
  assert (Hfull : (start' + length (buffered s))%nat = bufLen s -> start' = 0%nat).
  { subst start'. destruct (0 <? start s)%nat eqn:Hpos; cbn [andb].
    - destruct (Nat.eqb_spec (start s + length (buffered s)) (bufLen s)) as [Heq|Hne];
        cbn [orb]; [done|].
      destruct (bufLen s `div` 2 <? start s)%nat; [done|]. intros Heq. done.
    - apply Nat.ltb_ge in Hpos. lia. }
  clearbody start'.
  assert (Hgo : forall s1,
            rd s1 = rd s -> buffered s1 = buffered s -> scanErr s1 = None ->
            scanDone s1 = scanDone s -> maxTokenSize s1 = maxTokenSize s ->
            start s1 = start' ->
            (start' + length (buffered s) < bufLen s1)%nat ->
            Z.of_nat (bufLen s1) <= maxInt ->
            Z.of_nat (bufLen s1) <= Z.max (Z.of_nat (bufLen s)) (maxTokenSize s) ->
            readLoop more s1 = s' ->
            future s' = future s /\ maxTokenSize s' = maxTokenSize s
            /\ scanDone s' = scanDone s /\ inBounds s'
            /\ Z.of_nat (bufLen s') <= Z.max (Z.of_nat (bufLen s)) (maxTokenSize s)
            /\ (lively (rd s) -> lively (rd s'))
            /\ (IsError (scanErr s') = true -> buffered s' = buffered s)
            /\ (lively (rd s) -> concat (chunks (rd s)) <> [] ->
                scanErr s' = None
                /\ (length (buffered s) < length (buffered s'))%nat)).
  { intros s1 Hrd Hbuf Herr1 Hdone1 Hmax1 Hstart1 Hspace Hcap Hcap' <-.
    destruct (readLoop_future more s1) as (Hf & Hl & Hs & Hm & Hlv).
    assert (Hin1 : inBounds s1) by (unfold inBounds; rewrite Hbuf, Hstart1; lia).
    destruct (readLoop_settled more s1 Herr1 Hin1) as (Hin & Hdone & Hsame).
    rewrite Hf, Hm, Hdone, Hl. unfold future. rewrite Hrd, Hbuf.
    split_and!; try done.
    - by rewrite <- Hrd.
    - intros He. by rewrite (Hsame He).
    - intros Hlive Hmore. rewrite <- Hbuf.
      apply readLoop_reads; [done|by rewrite Hrd|by rewrite Hrd|].
      rewrite Hbuf, Hstart1. done. }
  destruct (Nat.eqb_spec (start' + length (buffered s)) (bufLen s)) as [Heq|Hne].
  - destruct ((maxTokenSize s <=? Z.of_nat (bufLen s))
              || (maxInt / 2 <? Z.of_nat (bufLen s))) eqn:Hlong; [done|].
    apply orb_false_iff in Hlong as [Hsize Hhalf].
    apply Z.leb_gt in Hsize. apply Z.ltb_ge in Hhalf.
    set (newSize := Z.min _ _).
    assert (Hnew : Z.of_nat (bufLen s) < newSize <= maxInt
                   /\ newSize <= maxTokenSize s).
    { subst newSize. revert Hhalf. unfold maxInt, startBufSize.
      destruct (Z.eqb_spec (Z.of_nat (bufLen s) * 2) 0); intros Hhalf;
        Z.div_mod_to_equations; lia. }
    clearbody newSize. specialize (Hfull Heq). subst start'.
    intros [= Hs']. eapply Hgo; [..|exact Hs']; cbn; try done; lia.
  - intros [= Hs']. eapply Hgo; [..|exact Hs']; cbn; try done; lia.
Qed.

(** The first half of a turn when no ready token is in the data: at the end
    of the input with data left it returns false with the error of the
    framing function; otherwise the turn goes on with the same data. *)
Lemma tryToken_tokenFree (config : ExiftoolConfig) (s : Scanner) :
  configReady config -> inBounds s -> tokenFree config (buffered s) ->
  match tryToken (splitReadyToken config) s with
  | inl (returned, s') =>
      returned = ScanFalse /\ IsError (scanErr s) = true
      /\ s' = setErr s noFinalToken
  | inr s' =>
      (IsError (scanErr s) = true -> buffered s = [])
      /\ rd s' = rd s /\ buffered s' = buffered s /\ start s' = start s
      /\ bufLen s' = bufLen s /\ maxTokenSize s' = maxTokenSize s
      /\ scanErr s' = scanErr s /\ scanDone s' = scanDone s
  end.
Proof.
  intros Hready [Hfit Hmax] Hfree. unfold tryToken.
  assert (Hlen : len (buffered s) <= maxInt) by (unfold len; lia).
  destruct (Nat.eqb_spec (length (buffered s)) 0) as [Hempty|Hdata]; cbn [negb orb].
  - apply nil_length_inv in Hempty.
    destruct (IsError (scanErr s)) eqn:He; [|done].
    destruct (splitReadyToken_first config (buffered s) true Hready Hlen)
      as [[_ ->]|(k & [Hocc _] & _)]; [|by destruct (Hfree k)].
    rewrite Hempty. change (0 <? len (@nil byte)) with false.
    change (len (@nil byte) <? 0) with false. cbn. by rewrite Nat.add_0_r.
  - destruct (splitReadyToken_first config (buffered s) (IsError (scanErr s)) Hready Hlen)
      as [[_ ->]|(k & [Hocc _] & _)]; [|by destruct (Hfree k)].
    assert (Hpos : (0 <? len (buffered s)) = true) by (apply Z.ltb_lt; unfold len; lia).
    rewrite Hpos, andb_true_r.
    destruct (IsError (scanErr s)) eqn:He; [done|].
    change (0 <? 0) with false. cbv iota.
    destruct (Z.ltb_spec (len (buffered s)) 0) as [|_]; [lia|].
    cbn. by rewrite drop_0, Nat.add_0_r.
Qed.

(** The first half of a turn of a request whose answer is on its way. *)
Lemma tryToken_awaiting (config : ExiftoolConfig) (s : Scanner) (idx : nat) :
  configReady config -> awaiting config s idx ->
  match tryToken (splitReadyToken config) s with
  | inl (returned, s') => returned = ScanTrue /\ delivered config s idx s'
  | inr s' =>
      tokenFree config (buffered s)
      /\ rd s' = rd s /\ buffered s' = buffered s /\ start s' = start s
      /\ bufLen s' = bufLen s /\ maxTokenSize s' = maxTokenSize s
      /\ scanErr s' = scanErr s /\ scanDone s' = scanDone s
  end.
Proof.
  intros Hready (Hdone & Herr & Hin & Hlive & [Hocc Hmin] & Hsize & Hcap).
  assert (Hlen : len (buffered s) <= maxInt) by (destruct Hin; unfold len; lia).
  destruct (splitReadyToken_first config (buffered s) false Hready Hlen)
    as [[Hfree _]|(k & [Hk Hkmin] & Hfit & Hpos & Hsplit)].
  - pose proof (tryToken_tokenFree config s Hready Hin Hfree) as Htry.
    destruct (tryToken (splitReadyToken config) s) as [[returned s']|s'].
    + destruct Htry as (_ & He & _). by rewrite Herr in He.
    + split; [done|]. apply Htry.
  - assert (Hidx : k = idx).
    { unfold future in Hocc, Hmin.
      destruct (Nat.lt_trichotomy k idx) as [Hlt|[->|Hgt]]; [|done|].
      - destruct (Hmin k Hlt). by apply occurs_at_app.
      - destruct (Hkmin idx Hgt). apply (occurs_at_app _ (concat (chunks (rd s)))); [lia|done]. }
    subst k. unfold tryToken. rewrite Herr. cbn [IsError]. rewrite orb_false_r.
    destruct (Nat.eqb_spec (length (buffered s)) 0) as [|_]; [lia|]. cbn [negb].
    rewrite Hsplit.
    destruct (Z.ltb_spec (Z.of_nat (idx + length (readyToken config))) 0) as [|_]; [lia|].
    destruct (Z.ltb_spec (len (buffered s)) (Z.of_nat (idx + length (readyToken config))))
      as [|_]; [unfold len in *; lia|].
    cbn. split; [done|].
    unfold delivered, future, inBounds. cbn. rewrite Nat2Z.id.
    destruct Hin as [Hb Hm].
    split_and!; try done.
    + by rewrite take_app_le by lia.
    + by rewrite drop_app_le by lia.
    + rewrite length_drop. lia.
Qed.

(** When the second half of a turn returns, it returns false: at the end of
    the input, or with a full buffer that may not grow. *)
Lemma readMore_returns (s s' : Scanner) (returned : ScanReturn) :
  readMore s = inl (returned, s') ->
  returned = ScanFalse
  /\ rd s' = rd s /\ bufLen s' = bufLen s /\ maxTokenSize s' = maxTokenSize s
  /\ scanDone s' = scanDone s /\ IsError (scanErr s') = true
  /\ (start s' + length (buffered s') <= start s + length (buffered s))%nat
  /\ ((IsError (scanErr s) = true /\ buffered s' = [])
      \/ (scanErr s = None /\ buffered s' = buffered s
          /\ bufLen s = length (buffered s)
          /\ (maxTokenSize s <= Z.of_nat (bufLen s)
              \/ maxInt / 2 < Z.of_nat (bufLen s)))).
Proof.
  unfold readMore. generalize maxConsecutiveEmptyReads. intros more.
  destruct (IsError (scanErr s)) eqn:He.
  { intros [= <- <-]. cbn. split_and!; try done; [lia | by left]. }
  apply IsError_false in He. cbv zeta.
  set (start' := if ((0 <? start s)%nat && _) then 0%nat else start s).
  assert (Hstart : (start' <= start s)%nat) by (subst start'; case_match; lia).
  assert (Hfull : (start' + length (buffered s))%nat = bufLen s -> start' = 0%nat).
  { subst start'. destruct (0 <? start s)%nat eqn:Hpos; cbn [andb].
    - destruct (Nat.eqb_spec (start s + length (buffered s)) (bufLen s)) as [Heq|Hne];
        cbn [orb]; [done|].
      destruct (bufLen s `div` 2 <? start s)%nat; [done|]. intros Heq. done.
    - apply Nat.ltb_ge in Hpos. lia. }
  clearbody start'.
  destruct (Nat.eqb_spec (start' + length (buffered s)) (bufLen s)) as [Heq|Hne]; [|done].
  destruct ((maxTokenSize s <=? Z.of_nat (bufLen s))
            || (maxInt / 2 <? Z.of_nat (bufLen s))) eqn:Hlong; [|done].
  intros [= <- <-].
  match goal with |- context [setErr ?s1 ErrTooLong] =>
    destruct (setErr_fields s1 ErrTooLong) as (Hr & Hb & Hs & Hl & Hd);
    pose proof (setErr_IsError s1 ErrTooLong) as Hset;
    assert (Hm : maxTokenSize (setErr s1 ErrTooLong) = maxTokenSize s1)
      by (unfold setErr; by destruct (match scanErr s1 with Some _ => _ | None => _ end))
  end.
  rewrite Hr, Hb, Hs, Hl, Hd, Hm. cbn. specialize (Hfull Heq). subst start'.
  split_and!; try done; [lia|]. right. split_and!; try done.
  apply orb_true_iff in Hlong as [H1|H2]; [left; by apply Z.leb_le | right; by apply Z.ltb_lt].
Qed.

Lemma awaiting_short (config : ExiftoolConfig) (s : Scanner) (idx : nat) :
  awaiting config s idx -> tokenFree config (buffered s) ->
  (length (buffered s) < idx + length (readyToken config))%nat
  /\ concat (chunks (rd s)) <> [].
Proof.
  intros (_ & _ & _ & _ & [Hocc _] & _) Hfree. unfold future in Hocc.
  assert (Hshort : (length (buffered s) < idx + length (readyToken config))%nat).
  { destruct (Nat.lt_ge_cases (length (buffered s)) (idx + length (readyToken config)))
      as [|Hge]; [done|].
    destruct (Hfree idx). by apply (occurs_at_app _ (concat (chunks (rd s)))). }
  split; [done|]. intros Hnil. rewrite Hnil, app_nil_r in Hocc.
  by destruct (Hfree idx).
Qed.

(** A turn of a request whose answer is on its way: it returns true with the
    record, or it goes on with the same bytes to come. *)
Lemma scanTurn_awaiting (config : ExiftoolConfig) (s : Scanner) (idx : nat) :
  configReady config -> awaiting config s idx ->
  match scanTurn (splitReadyToken config) s with
  | inl (returned, s') => returned = ScanTrue /\ delivered config s idx s'
  | inr s' =>
      awaiting config s' idx /\ future s' = future s
      /\ maxTokenSize s' = maxTokenSize s
  end.
Proof.
  intros Hready Hwait. unfold scanTurn.
  pose proof (tryToken_awaiting config s idx Hready Hwait) as Htry.
  destruct (tryToken (splitReadyToken config) s) as [[returned s1]|s1]; [done|].
  destruct Htry as (Hfree & Hrd & Hbuf & Hstart & Hlen & Hmax & Herr & Hdone).
  assert (Hwait1 : awaiting config s1 idx).
  { unfold awaiting, future, inBounds, lively in *.
    by rewrite Hrd, Hbuf, Hstart, Hlen, Hmax, Herr, Hdone. }
  assert (Hfuture : future s1 = future s) by (unfold future; by rewrite Hrd, Hbuf).
  rewrite <- Hbuf in Hfree.
  destruct (awaiting_short config s1 idx Hwait1 Hfree) as [Hshort Hmore].
  destruct Hwait1 as (Hd1 & He1 & Hin1 & Hlive1 & Hfirst1 & Hsize1 & Hcap1).
  destruct (readMore s1) as [[returned s2]|s2] eqn:Hread.
  - apply readMore_returns in Hread
      as (_ & _ & _ & _ & _ & _ & _ & [[He _]|(_ & _ & Hfull & Hlong)]).
    + by rewrite He1 in He.
    + exfalso. revert Hlong. unfold maxInt. rewrite Hfull.
      intros [Hsmall|Hhalf]; [lia|]. revert Hhalf. Z.div_mod_to_equations. lia.
  - apply (readMore_reads s1 s2 He1 Hin1) in Hread
      as (Hf & Hm & Hd & Hin & _ & Hlv & _ & Hgo).
    destruct (Hgo Hlive1 Hmore) as [He2 _].
    split; [|by rewrite Hf, Hm].
    unfold awaiting. rewrite Hf, Hm, Hd. split_and!; try done. by apply Hlv.
Qed.

Lemma scanLoop_awaiting (config : ExiftoolConfig) (fuel : nat) (s s' : Scanner)
    (idx : nat) (returned : ScanReturn) :
  configReady config -> awaiting config s idx ->
  scanLoop fuel (splitReadyToken config) s = Some (returned, s') ->
  returned = ScanTrue /\ delivered config s idx s'.
Proof.
  intros Hready. revert s. induction fuel as [|fuel IH]; intros s Hwait; [done|].
  cbn [scanLoop].
  pose proof (scanTurn_awaiting config s idx Hready Hwait) as Hturn.
  destruct (scanTurn (splitReadyToken config) s) as [[r1 s1]|s1].
  - by intros [= <- <-].
  - destruct Hturn as (Hwait1 & Hf & Hm). intros Hloop.
    destruct (IH s1 Hwait1 Hloop) as [-> Hdel]. split; [done|].
    unfold delivered in *. by rewrite <- Hf, <- Hm.
Qed.

(** The scan of a request whose answer is on its way returns true with the
    record. *)
Lemma Scan_awaiting (config : ExiftoolConfig) (s : Scanner) (idx : nat) :
  configReady config -> awaiting config s idx ->
  (Scan (splitReadyToken config) s).1 = ScanTrue
  /\ delivered config s idx (Scan (splitReadyToken config) s).2.
Proof.
  intros Hready Hwait.
  destruct (Scan_returns (splitReadyToken config) s (proj1 Hwait))
    as ([returned s'] & Hloop & ->).
  by apply (scanLoop_awaiting config (scanFuel s) s).
Qed.

Lemma bytes_Index_first_occurrence (s sep : list byte) (k : nat) :
  bytes_Index s sep = Z.of_nat k -> first_occurrence s sep k.
Proof.
  unfold bytes_Index. intros Hk.
  destruct (index_from_cases s sep 0) as [[Hidx _]|[(j & Hj & Hidx)|?]]; [lia| |lia].
  replace k with j by lia. done.
Qed.

(** ** Requests that cannot be answered *)

Lemma starved_tokenFree (config : ExiftoolConfig) (s : Scanner) :
  configReady config -> starved config s -> tokenFree config (buffered s).
Proof.
  intros [_ Hne] (_ & [Hfit _] & Hcap & Hfar) k Hocc.
  destruct (occurs_at_bound _ _ _ Hocc) as [Hbound|Hnil]; [|done].
  assert (Hk : occurs_at (future s) (readyToken config) k).
  { unfold future. by apply occurs_at_app. }
  specialize (Hfar k Hk). lia.
Qed.

Lemma setErr_maxTokenSize (s : Scanner) (e : error) :
  maxTokenSize (setErr s e) = maxTokenSize s.
Proof. unfold setErr. by destruct (match scanErr s with Some _ => _ | None => _ end). Qed.

Lemma readMore_goes_on (s s' : Scanner) : readMore s = inr s' -> scanErr s = None.
Proof.
  unfold readMore. destruct (IsError (scanErr s)) eqn:He; [done|].
  intros _. by apply IsError_false.
Qed.

(** A turn of a request that cannot be answered: it returns false with an
    error set, or it goes on; the bytes to come stay as they are. *)
Lemma scanTurn_starved (config : ExiftoolConfig) (s : Scanner) :
  configReady config -> starved config s ->
  match scanTurn (splitReadyToken config) s with
  | inl (returned, s') =>
      returned = ScanFalse /\ starved config s' /\ IsError (scanErr s') = true
      /\ future s' = future s /\ maxTokenSize s' = maxTokenSize s
  | inr s' =>
      starved config s' /\ future s' = future s /\ maxTokenSize s' = maxTokenSize s
  end.
Proof.
  intros Hready Hstarved.
  pose proof (starved_tokenFree config s Hready Hstarved) as Hfree.
  destruct Hstarved as (Hdone & Hin & Hcap & Hfar).
  unfold scanTurn.
  pose proof (tryToken_tokenFree config s Hready Hin Hfree) as Htry.
  destruct (tryToken (splitReadyToken config) s) as [[returned s1]|s1].
  - destruct Htry as (-> & He & ->).
    destruct (setErr_fields s noFinalToken) as (Hrd & Hbuf & Hstart & Hlen & Hd).
    pose proof (setErr_maxTokenSize s noFinalToken) as Hmax.
    split; [done|].
    assert (Hfuture : future (setErr s noFinalToken) = future s).
    { unfold future. by rewrite Hrd, Hbuf. }
    split_and!; [|by apply setErr_IsError|done|done].
    unfold starved. rewrite Hfuture, Hmax, Hlen, Hd.
    split_and!; try done. by apply setErr_inBounds.
  - destruct Htry as (Hempty & Hrd & Hbuf & Hstart & Hlen & Hmax & Herr & Hd).
    assert (Hfuture1 : future s1 = future s) by (unfold future; by rewrite Hrd, Hbuf).
    assert (Hin1 : inBounds s1) by (unfold inBounds in *; by rewrite Hbuf, Hstart, Hlen).
    destruct (readMore s1) as [[returned s2]|s2] eqn:Hread.
    + apply readMore_returns in Hread
        as (-> & Hrd2 & Hlen2 & Hmax2 & Hd2 & He2 & Hend & Hwhy).
      assert (Hfuture2 : future s2 = future s).
      { rewrite <- Hfuture1. unfold future. rewrite Hrd2.
        destruct Hwhy as [[He1 ->]|(_ & -> & _)]; [|done].
        rewrite Herr in He1. by rewrite Hbuf, (Hempty He1). }
      split; [done|]. split_and!; [|done|done|congruence].
      unfold starved. rewrite Hfuture2, Hmax2, Hmax, Hlen2, Hlen, Hd2, Hd.
      split_and!; try done.
      destruct Hin1 as [Hfit1 Hint1]. split; [lia|]. by rewrite Hlen2.
    + pose proof (readMore_goes_on _ _ Hread) as He1.
      apply (readMore_reads s1 s2 He1 Hin1) in Hread
        as (Hf & Hm & Hd2 & Hin2 & Hgrow & _).
      split_and!; [|congruence..].
      unfold starved. rewrite Hf, Hfuture1, Hm, Hmax, Hd2, Hd.
      split_and!; try done. rewrite Hlen, Hmax in Hgrow. lia.
Qed.

Lemma scanLoop_starved (config : ExiftoolConfig) (fuel : nat) (s s' : Scanner)
    (returned : ScanReturn) :
  configReady config -> starved config s ->
  scanLoop fuel (splitReadyToken config) s = Some (returned, s') ->
  returned = ScanFalse /\ starved config s' /\ IsError (scanErr s') = true
  /\ future s' = future s /\ maxTokenSize s' = maxTokenSize s.
Proof.
  intros Hready. revert s. induction fuel as [|fuel IH]; intros s Hstarved; [done|].
  cbn [scanLoop].
  pose proof (scanTurn_starved config s Hready Hstarved) as Hturn.
  destruct (scanTurn (splitReadyToken config) s) as [[r1 s1]|s1].
  - by intros [= <- <-].
  - destruct Hturn as (Hstarved1 & Hf & Hm). intros Hloop.
    destruct (IH s1 Hstarved1 Hloop) as (-> & ? & ? & Hf' & Hm').
    split_and!; try done; congruence.
Qed.

(** The scan of a request that cannot be answered returns false with an
    error set, and the next request cannot be answered either. *)
Lemma Scan_starved (config : ExiftoolConfig) (s : Scanner) :
  configReady config -> starved config s ->
  (Scan (splitReadyToken config) s).1 = ScanFalse
  /\ starved config (Scan (splitReadyToken config) s).2
  /\ IsError (scanErr (Scan (splitReadyToken config) s).2) = true
  /\ future (Scan (splitReadyToken config) s).2 = future s.
Proof.
  intros Hready Hstarved.
  destruct (Scan_returns (splitReadyToken config) s (proj1 Hstarved))
    as ([returned s'] & Hloop & ->).
  destruct (scanLoop_starved config (scanFuel s) s s' returned Hready Hstarved Hloop)
    as (-> & ? & ? & ? & _).
  done.
Qed.

(** ** Requests and their answers *)

Section Requests.
Context `{Externals}.

(** A request whose answer is on its way: the record is parsed from the
    bytes before the first ready token, and the scanner is left behind that
    token. *)
Lemma ReadMetadata_awaiting (et : Exiftool) (file : string) (idx : nat) :
  configReady (config et) -> awaiting (config et) (scanMergedOut (io et)) idx ->
  json_Unmarshal (bytes_of "{}") <> inl [] ->
  ((ReadMetadata et file).1.2, (ReadMetadata et file).2)
  = Parse (requested file) (take idx (future (scanMergedOut (io et))))
  /\ config (ReadMetadata et file).1.1 = config et
  /\ delivered (config et) (scanMergedOut (io et)) idx
       (scanMergedOut (io (ReadMetadata et file).1.1)).
Proof.
  intros Hready Hwait Hfirst.
  destruct (Scan_awaiting (config et) (scanMergedOut (io et)) idx Hready Hwait)
    as [Hret Hdel].
  unfold ReadMetadata, requested, emptyMetadata. cbn [DataMap DataMapJson].
  destruct (Parse _ (bytes_of "{}")) as [meta outcome] eqn:Hparse.
  assert (Hout : forall msg, outcome <> Panic msg).
  { intros msg ->. apply Hfirst. eapply Parse_Panic_inv. by rewrite Hparse. }
  destruct (Scan (splitReadyToken (config et)) (scanMergedOut (io et)))
    as [returned scanner].
  cbn in Hret, Hdel. subst returned.
  pose proof Hdel as (Htok & _ & Herr & _).
  unfold Scanner_Err, Scanner_Bytes. rewrite Herr, Htok. cbn [default fst snd].
  destruct outcome as [|e0|msg0]; [| |by destruct (Hout msg0)];
    by destruct (Parse meta _).
Qed.

Lemma delivered_awaiting (config : ExiftoolConfig) (before s : Scanner) (idx next : nat) :
  delivered config before idx s ->
  first_occurrence (future s) (readyToken config) next ->
  Z.of_nat (next + length (readyToken config)) <= maxTokenSize before ->
  maxTokenSize before <= 2 ^ 62 ->
  awaiting config s next.
Proof.
  intros (_ & _ & Herr & Hdone & Hin & Hlive & Hmax) Hfirst Hsize Hcap.
  unfold awaiting. rewrite Hmax. done.
Qed.

Lemma foldl_Fprintln (w args : list string) :
  foldl Fprintln w args = w ++ ((fun v => v +:+ LF) <$> args).
Proof.
  revert w. induction args as [|v args IH]; intros w; cbn [foldl fmap list_fmap].
  - by rewrite app_nil_r.
  - rewrite IH. unfold Fprintln. by rewrite <- app_assoc.
Qed.

(** X1: the scanner of the session, with [splitReadyToken] as its split
    function, hands out the bytes before the first ready token, however the
    stream is cut into reads and whatever is in its buffer already.  When the
    ready token first occurs at offset [idx] of the bytes that the scanner
    has yet to hand out, and the record with its token is within the largest
    token size, [Scan] returns true, [Bytes] is the [idx] bytes before the
    token, [Err] is nil, the bytes to come are those behind the token, and
    the scanner is ready in the same way for the record that follows. *)
Theorem Scan_first_record (config : ExiftoolConfig) (s : Scanner) (idx : nat) :
  configReady config -> awaiting config s idx ->
  (Scan (splitReadyToken config) s).1 = ScanTrue
  /\ Scanner_Bytes (Scan (splitReadyToken config) s).2 = Some (take idx (future s))
  /\ Scanner_Err (Scan (splitReadyToken config) s).2 = None
  /\ future (Scan (splitReadyToken config) s).2
     = drop (idx + length (readyToken config)) (future s)
  /\ (forall next,
        first_occurrence (drop (idx + length (readyToken config)) (future s))
          (readyToken config) next ->
        Z.of_nat (next + length (readyToken config)) <= maxTokenSize s ->
        awaiting config (Scan (splitReadyToken config) s).2 next).
Proof.
  intros Hready Hwait.
  destruct (Scan_awaiting config s idx Hready Hwait) as [Hret Hdel].
  pose proof Hdel as (Htok & Hfuture & Herr & _).
  split_and!; try done.
  - unfold Scanner_Err. by rewrite Herr.
  - intros next Hnext Hsize. eapply delivered_awaiting; [exact Hdel|..]; try done.
    + by rewrite Hfuture.
    + by destruct Hwait as (_ & _ & _ & _ & _ & _ & Hcap).
Qed.

(** X2: a request whose answer is on its way gets that answer.  When the
    ready token first occurs at offset [idx] of the bytes that the scanner of
    the session has yet to hand out, [ReadMetadata] returns what [Parse]
    makes of the [idx] bytes before the token, on the record that holds the
    requested path; the configuration is kept and the bytes to come are those
    behind the token. *)
Theorem ReadMetadata_record (et : Exiftool) (file : string) (idx : nat) :
  configReady (config et) -> awaiting (config et) (scanMergedOut (io et)) idx ->
  json_Unmarshal (bytes_of "{}") <> inl [] ->
  ((ReadMetadata et file).1.2, (ReadMetadata et file).2)
  = Parse (requested file) (take idx (future (scanMergedOut (io et))))
  /\ config (ReadMetadata et file).1.1 = config et
  /\ future (scanMergedOut (io (ReadMetadata et file).1.1))
     = drop (idx + length (readyToken (config et))) (future (scanMergedOut (io et))).
Proof.
  intros Hready Hwait Hfirst.
  destruct (ReadMetadata_awaiting et file idx Hready Hwait Hfirst)
    as (Hrecord & Hconfig & _ & Hfuture & _).
  done.
Qed.

(** X3: answers are taken in their order.  When the stream holds two answers
    one after the other, the request that follows a first request gets the
    second answer: what [Parse] makes of the bytes between the first ready
    token and the second, whatever the two paths are and however the first
    request ended. *)
Theorem ReadMetadata_in_order (et : Exiftool) (file1 file2 : string) (idx1 idx2 : nat) :
  configReady (config et) -> awaiting (config et) (scanMergedOut (io et)) idx1 ->
  first_occurrence
    (drop (idx1 + length (readyToken (config et))) (future (scanMergedOut (io et))))
    (readyToken (config et)) idx2 ->
  Z.of_nat (idx2 + length (readyToken (config et))) <= maxTokenSize (scanMergedOut (io et)) ->
  json_Unmarshal (bytes_of "{}") <> inl [] ->
  let second := ReadMetadata (ReadMetadata et file1).1.1 file2 in
  (second.1.2, second.2)
  = Parse (requested file2)
      (take idx2
         (drop (idx1 + length (readyToken (config et)))
            (future (scanMergedOut (io et))))).
Proof.
  intros Hready Hwait Hnext Hsize Hfirst second. subst second.
  destruct (ReadMetadata_awaiting et file1 idx1 Hready Hwait Hfirst)
    as (_ & Hconfig & Hdel).
  pose proof Hdel as (_ & Hfuture & _).
  set (et1 := (ReadMetadata et file1).1.1) in *.
  assert (Hwait1 : awaiting (config et1) (scanMergedOut (io et1)) idx2).
  { rewrite Hconfig. eapply delivered_awaiting; [exact Hdel|..]; try done.
    - by rewrite Hfuture.
    - by destruct Hwait as (_ & _ & _ & _ & _ & _ & Hcap). }
  assert (Hready1 : configReady (config et1)) by (by rewrite Hconfig).
  destruct (ReadMetadata_awaiting et1 file2 idx2 Hready1 Hwait1 Hfirst) as (-> & _).
  by rewrite Hfuture.
Qed.

(** The request of a session whose scanner is starved. *)
Lemma ReadMetadata_starved (et : Exiftool) (file : string) :
  configReady (config et) -> starved (config et) (scanMergedOut (io et)) ->
  json_Unmarshal (bytes_of "{}") <> inl [] ->
  (ReadMetadata et file).2
  = Err (Errorf (fmt_Sprintf0 ("error reading exif data:" +:+ file)))
  /\ (ReadMetadata et file).1.2 = requested file
  /\ config (ReadMetadata et file).1.1 = config et
  /\ starved (config et) (scanMergedOut (io (ReadMetadata et file).1.1))
  /\ future (scanMergedOut (io (ReadMetadata et file).1.1))
     = future (scanMergedOut (io et)).
Proof.
  intros Hready Hstarved Hfirst.
  destruct (Scan_starved (config et) (scanMergedOut (io et)) Hready Hstarved)
    as (Hret & Hafter & _ & Hfuture).
  unfold ReadMetadata, requested, emptyMetadata. cbn [DataMap DataMapJson].
  destruct (Parse _ (bytes_of "{}")) as [meta outcome] eqn:Hparse.
  assert (Hout : forall msg, outcome <> Panic msg).
  { intros msg ->. apply Hfirst. eapply Parse_Panic_inv. by rewrite Hparse. }
  destruct (Scan (splitReadyToken (config et)) (scanMergedOut (io et)))
    as [returned scanner].
  cbn in Hret, Hafter, Hfuture. subst returned.
  destruct outcome as [|e0|msg0]; [| |by destruct (Hout msg0)]; done.
Qed.

(** X4: a request that cannot be answered, and those that follow it.  When no
    ready token is complete within the largest token size in the bytes that
    the scanner has yet to hand out (the stream ends or breaks before one, or
    the record is too long), [ReadMetadata] returns the error of a missing
    answer and the record it made for the path; the bytes of the stream are
    not handed out, and every request that follows ends in the same way. *)
Theorem ReadMetadata_unanswered (et : Exiftool) (file : string) :
  configReady (config et) -> starved (config et) (scanMergedOut (io et)) ->
  json_Unmarshal (bytes_of "{}") <> inl [] ->
  (ReadMetadata et file).2
  = Err (Errorf (fmt_Sprintf0 ("error reading exif data:" +:+ file)))
  /\ (ReadMetadata et file).1.2 = requested file
  /\ future (scanMergedOut (io (ReadMetadata et file).1.1))
     = future (scanMergedOut (io et))
  /\ (forall later,
        (ReadMetadata (ReadMetadata et file).1.1 later).2
        = Err (Errorf (fmt_Sprintf0 ("error reading exif data:" +:+ later))))
  /\ starved (config (ReadMetadata et file).1.1)
       (scanMergedOut (io (ReadMetadata et file).1.1)).
Proof.
  intros Hready Hstarved Hfirst.
  destruct (ReadMetadata_starved et file Hready Hstarved Hfirst)
    as (Hret & Hmeta & Hconfig & Hafter & Hfuture).
  split_and!; try done; [|by rewrite Hconfig].
  intros later.
  apply ReadMetadata_starved; [| |done]; by rewrite Hconfig.
Qed.

(** X5: what a request writes to the command channel.  Whatever the answer
    is, [ReadMetadata] adds to the command channel the arguments of
    [dataExtractArgs] in their order, then the path, then [executeArg], each
    as one line that ends with a line feed, and nothing else. *)
Theorem ReadMetadata_commands (et : Exiftool) (file : string) :
  json_Unmarshal (bytes_of "{}") <> inl [] ->
  stdin (io (ReadMetadata et file).1.1)
  = stdin (io et)
    ++ ((fun v => v +:+ LF) <$> (dataExtractArgs (config et) ++ [file; executeArg (config et)])).
Proof.
  intros Hfirst. unfold ReadMetadata.
  destruct (Parse _ (bytes_of "{}")) as [meta outcome] eqn:Hparse.
  assert (Hout : forall msg, outcome <> Panic msg).
  { intros msg ->. apply Hfirst. eapply Parse_Panic_inv. by rewrite Hparse. }
  assert (Hw :
    Fprintln (Fprintln (foldl Fprintln (stdin (io et)) (dataExtractArgs (config et))) file)
      (executeArg (config et))
    = stdin (io et)
      ++ ((fun v => v +:+ LF) <$> (dataExtractArgs (config et) ++ [file; executeArg (config et)]))).
  { rewrite foldl_Fprintln. unfold Fprintln. rewrite fmap_app.
    cbn [fmap list_fmap]. by rewrite <- !app_assoc. }
  destruct (Scan (splitReadyToken (config et)) (scanMergedOut (io et)))
    as [[| |msg] scanner];
    destruct outcome as [|e0|msg0]; try (by destruct (Hout msg0)); cbn;
    try done; destruct (Scanner_Err scanner); try done; by destruct (Parse meta _).
Qed.

(** X6: the one way in which a request panics.  In a session whose scanner
    is between two requests, [ReadMetadata] does not panic in the scanner: a
    panic is the index error of [Parse], on an answer that [json.Unmarshal]
    decodes to an empty slice. *)
Theorem ReadMetadata_panic (et : Exiftool) (file : string) (msg : string) :
  configReady (config et) -> settled (config et) (scanMergedOut (io et)) ->
  json_Unmarshal (bytes_of "{}") <> inl [] ->
  (ReadMetadata et file).2 = Panic msg ->
  msg = "runtime error: index out of range [0] with length 0"
  /\ json_Unmarshal
       (default [] (Scanner_Bytes (scanMergedOut (io (ReadMetadata et file).1.1))))
     = inl []
  /\ Scanner_Err (scanMergedOut (io (ReadMetadata et file).1.1)) = None.
Proof.
  intros Hready Hsettled Hfirst.
  pose proof (Scan_settled (config et) (scanMergedOut (io et)) Hready Hsettled)
    as [Hafter Hreturned].
  unfold ReadMetadata.
  destruct (Parse _ (bytes_of "{}")) as [meta outcome] eqn:Hparse.
  assert (Hout : forall m, outcome <> Panic m).
  { intros m ->. apply Hfirst. eapply Parse_Panic_inv. by rewrite Hparse. }
  assert (Hlast : forall (m : ExifToolMetadata) (answer : list byte),
    (Parse m answer).2 = Panic msg ->
    msg = "runtime error: index out of range [0] with length 0"
    /\ json_Unmarshal answer = inl []).
  { intros m answer. unfold Parse.
    destruct (json_Unmarshal answer) as [[|first rest]|err]; [|done..].
    by intros [= <-]. }
  destruct (Scan (splitReadyToken (config et)) (scanMergedOut (io et)))
    as [[| |m] scanner]; cbn in Hafter, Hreturned; [| |done].
  - unfold Scanner_Err. rewrite Hreturned.
    destruct outcome as [|e0|msg0]; [| |by destruct (Hout msg0)].
    all: pose proof (Hlast meta (default [] (Scanner_Bytes scanner))) as Hwhy.
    all: destruct (Parse meta (default [] (Scanner_Bytes scanner))) as [meta' err].
    all: cbn in *; intros ->; destruct (Hwhy eq_refl) as [-> Hempty].
    all: by rewrite Hreturned.
  - destruct outcome as [|e0|msg0]; [| |by destruct (Hout msg0)]; done.
Qed.

End Requests.

(** ** Requests at work *)

Ltac closed_lively :=
  unfold lively; repeat (apply Forall_cons_2; [by vm_compute|]); apply Forall_nil_2.

Ltac closed_awaiting :=
  unfold awaiting; split_and!;
    [done | done | split; [cbn; lia | by vm_compute] | closed_lively
    | apply bytes_Index_first_occurrence; by vm_compute
    | by vm_compute | by vm_compute].

Section MoreRuns.
Import Sample Cases Streams.
#[local] Existing Instance externals.

(** The first scan of a stream of three reads that cut the ready token. *)
Lemma Scan_first_record_witness :
  (Scan (splitReadyToken (config pipelined)) (scanMergedOut (io pipelined))).1 = ScanTrue
  /\ Scanner_Bytes (Scan (splitReadyToken (config pipelined)) (scanMergedOut (io pipelined))).2
     = Some (bytes_of firstAnswer).
Proof.
  assert (Hwait : awaiting (config pipelined) (scanMergedOut (io pipelined)) 40)
    by closed_awaiting.
  destruct (Scan_first_record (config pipelined) (scanMergedOut (io pipelined)) 40
              (UseDefaults_readyToken "linux") Hwait) as (Hret & Hbytes & _).
  split; [exact Hret|]. rewrite Hbytes. by vm_compute.
Defined.

(** The first request of that session. *)
Lemma ReadMetadata_record_witness :
  (ReadMetadata pipelined "x.jpg").2 = Ok
  /\ Get (ReadMetadata pipelined "x.jpg").1.2 "Make" = "Canon".
Proof.
  assert (Hwait : awaiting (config pipelined) (scanMergedOut (io pipelined)) 40)
    by closed_awaiting.
  assert (Hfirst : json_Unmarshal (bytes_of "{}") <> inl []) by (by vm_compute).
  destruct (ReadMetadata_record pipelined "x.jpg" 40
              (UseDefaults_readyToken "linux") Hwait Hfirst) as (Hrecord & _).
  revert Hrecord. generalize (ReadMetadata pipelined "x.jpg").
  intros [[et meta] err]. cbn [fst snd]. intros Hrecord.
  pose proof (f_equal fst Hrecord) as Hmeta. pose proof (f_equal snd Hrecord) as Herr.
  cbn [fst snd] in Hmeta, Herr. subst meta err. by vm_compute.
Defined.

(** The second request of that session. *)
Lemma ReadMetadata_in_order_witness :
  (ReadMetadata (ReadMetadata pipelined "x.jpg").1.1 "y.jpg").2 = Ok
  /\ Get (ReadMetadata (ReadMetadata pipelined "x.jpg").1.1 "y.jpg").1.2 "Model" = "EOS 5D".
Proof.
  assert (Hwait : awaiting (config pipelined) (scanMergedOut (io pipelined)) 40)
    by closed_awaiting.
  assert (Hfirst : json_Unmarshal (bytes_of "{}") <> inl []) by (by vm_compute).
  assert (Hnext :
    first_occurrence
      (drop (40 + length (readyToken (config pipelined)))
         (future (scanMergedOut (io pipelined))))
      (readyToken (config pipelined)) 42).
  { apply bytes_Index_first_occurrence. by vm_compute. }
  assert (Hsize :
    Z.of_nat (42 + length (readyToken (config pipelined)))
    <= maxTokenSize (scanMergedOut (io pipelined))) by (by vm_compute).
  pose proof (ReadMetadata_in_order pipelined "x.jpg" "y.jpg" 40 42
                (UseDefaults_readyToken "linux") Hwait Hnext Hsize Hfirst) as Hrecord.
  cbv zeta in Hrecord. revert Hrecord.
  generalize (ReadMetadata (ReadMetadata pipelined "x.jpg").1.1 "y.jpg").
  intros [[et meta] err]. cbn [fst snd]. intros Hrecord.
  pose proof (f_equal fst Hrecord) as Hmeta. pose proof (f_equal snd Hrecord) as Herr.
  cbn [fst snd] in Hmeta, Herr. subst meta err. by vm_compute.
Defined.

(** Two requests of a session whose scanner may hold 16 bytes. *)
Lemma ReadMetadata_unanswered_witness :
  (ReadMetadata cramped "x.jpg").2 = Err (Errorf "error reading exif data:x.jpg")
  /\ (ReadMetadata (ReadMetadata cramped "x.jpg").1.1 "y.jpg").2
     = Err (Errorf "error reading exif data:y.jpg").
Proof.
  assert (Hstarved : starved (config cramped) (scanMergedOut (io cramped))).
  { unfold starved. split_and!; [done | split; [cbn; lia | by vm_compute] | by vm_compute |].
    intros k Hk.
    assert (Hfirst : first_occurrence (future (scanMergedOut (io cramped)))
                       (readyToken (config cramped)) 40).
    { apply bytes_Index_first_occurrence. by vm_compute. }
    destruct (Nat.lt_ge_cases k 40) as [Hlt|Hge]; [by destruct (proj2 Hfirst k Hlt)|].
    replace (maxTokenSize (scanMergedOut (io cramped))) with 16 by (by vm_compute).
    lia. }
  assert (Hfirst : json_Unmarshal (bytes_of "{}") <> inl []) by (by vm_compute).
  destruct (ReadMetadata_unanswered cramped "x.jpg"
              (UseDefaults_readyToken "linux") Hstarved Hfirst)
    as (Herr & _ & _ & Hlater & _).
  split; [rewrite Herr | rewrite (Hlater "y.jpg")]; by vm_compute.
Defined.

(** The lines of a request with the default configuration: the path and the
    argument that executes come last. *)
Lemma ReadMetadata_commands_witness :
  drop 16 (stdin (io (ReadMetadata answering "a.jpg").1.1))
  = ["a.jpg" +:+ LF; "-execute" +:+ LF].
Proof.
  assert (Hfirst : json_Unmarshal (bytes_of "{}") <> inl []) by (by vm_compute).
  rewrite (ReadMetadata_commands answering "a.jpg" Hfirst). by vm_compute.
Defined.

(** A request that is answered with an empty array. *)
Lemma ReadMetadata_panic_witness :
  json_Unmarshal
    (default [] (Scanner_Bytes (scanMergedOut (io (ReadMetadata emptyAnswer "a.jpg").1.1))))
  = inl [].
Proof.
  assert (Hfirst : json_Unmarshal (bytes_of "{}") <> inl []) by (by vm_compute).
  assert (Hpanic : (ReadMetadata emptyAnswer "a.jpg").2
                   = Panic "runtime error: index out of range [0] with length 0")
    by (by vm_compute).
  by destruct (ReadMetadata_panic emptyAnswer "a.jpg" _
                 (UseDefaults_readyToken "linux") (NewScanner_settled _ _) Hfirst Hpanic)
    as (_ & Hempty & _).
Defined.

End MoreRuns.

(** ** White space at the ends *)

Lemma length_append (a b : string) :
  String.length (a +:+ b) = (String.length a + String.length b)%nat.
Proof. induction a as [|c a IH]; [done|]. rewrite append_cons. cbn. by rewrite IH. Qed.

Lemma cutPrefix_app (s p rest : string) : cutPrefix s p = Some rest -> s = p +:+ rest.
Proof.
  revert s. induction p as [|c p IH]; intros s; cbn [cutPrefix].
  - by intros [= ->].
  - destruct s as [|d s]; [done|].
    destruct (Ascii.eqb_spec d c) as [->|Hne]; [|done].
    intros Hcut. rewrite append_cons. by rewrite (IH s Hcut).
Qed.

Lemma cutPrefix_more (s p rest w : string) :
  cutPrefix s p = Some rest -> cutPrefix (s +:+ w) p = Some (rest +:+ w).
Proof.
  revert s. induction p as [|c p IH]; intros s; cbn [cutPrefix].
  - by intros [= ->].
  - destruct s as [|d s]; [done|]. rewrite append_cons.
    destruct (Ascii.eqb d c); [apply IH|done].
Qed.

Lemma cutAnyPrefix_shorter (runes : list string) (s rest : string) :
  Forall (fun p => p <> "") runes -> cutAnyPrefix runes s = Some rest ->
  exists pre, s = pre +:+ rest /\ (String.length rest < String.length s)%nat.
Proof.
  induction 1 as [|p runes Hp _ IH]; cbn [cutAnyPrefix]; [done|].
  destruct (cutPrefix s p) as [r|] eqn:Hcut; [|exact IH].
  intros [= ->]. exists p. apply cutPrefix_app in Hcut as ->. split; [done|].
  rewrite length_append. destruct p; [done|]. cbn. lia.
Qed.

Lemma cutAnyPrefix_more (runes : list string) (s w : string) :
  cutAnyPrefix runes (s +:+ w) = None -> cutAnyPrefix runes s = None.
Proof.
  induction runes as [|p runes IH]; cbn [cutAnyPrefix]; [done|].
  destruct (cutPrefix s p) as [r|] eqn:Hcut.
  - by rewrite (cutPrefix_more s p r w Hcut).
  - destruct (cutPrefix (s +:+ w) p); [done|]. exact IH.
Qed.

Lemma trimLeftLoop_suffix (fuel : nat) (runes : list string) (s : string) :
  Forall (fun p => p <> "") runes ->
  exists pre, s = pre +:+ trimLeftLoop fuel runes s.
Proof.
  intros Hrunes. revert s. induction fuel as [|fuel IH]; intros s; cbn [trimLeftLoop].
  - by exists "".
  - destruct (cutAnyPrefix runes s) as [rest|] eqn:Hcut; [|by exists ""].
    destruct (cutAnyPrefix_shorter runes s rest Hrunes Hcut) as (p & -> & _).
    destruct (IH rest) as [pre Hpre]. exists (p +:+ pre).
    rewrite append_assoc. by rewrite <- Hpre.
Qed.

Lemma trimLeftLoop_done (fuel : nat) (runes : list string) (s : string) :
  Forall (fun p => p <> "") runes -> (String.length s <= fuel)%nat ->
  cutAnyPrefix runes (trimLeftLoop fuel runes s) = None.
Proof.
  intros Hrunes. revert s. induction fuel as [|fuel IH]; intros s Hlen; cbn [trimLeftLoop].
  - destruct s; [|cbn in Hlen; lia].
    destruct (cutAnyPrefix runes "") as [rest|] eqn:Hcut; [|done].
    destruct (cutAnyPrefix_shorter runes "" rest Hrunes Hcut) as (_ & _ & Hlt).
    cbn in Hlt. lia.
  - destruct (cutAnyPrefix runes s) as [rest|] eqn:Hcut; [|done].
    destruct (cutAnyPrefix_shorter runes s rest Hrunes Hcut) as (_ & _ & Hlt).
    apply IH. lia.
Qed.

Lemma list_ascii_of_string_append (a b : string) :
  list_ascii_of_string (a +:+ b) = list_ascii_of_string a ++ list_ascii_of_string b.
Proof. induction a as [|c a IH]; [done|]. rewrite append_cons. cbn. by rewrite IH. Qed.

Lemma string_of_list_ascii_app (l k : list ascii) :
  string_of_list_ascii (l ++ k) = string_of_list_ascii l +:+ string_of_list_ascii k.
Proof. induction l as [|c l IH]; [done|]. cbn. by rewrite IH, append_cons. Qed.

Lemma reverse_string_append (a b : string) :
  reverse_string (a +:+ b) = reverse_string b +:+ reverse_string a.
Proof.
  unfold reverse_string.
  by rewrite list_ascii_of_string_append, rev_app_distr, string_of_list_ascii_app.
Qed.

Lemma reverse_string_length (s : string) :
  String.length (reverse_string s) = String.length s.
Proof.
  induction s as [|c s IH]; [done|].
  change (String c s) with (String c "" +:+ s).
  rewrite reverse_string_append, !length_append, IH. cbn. lia.
Qed.

Lemma spaceRunes_nonempty : Forall (fun p => p <> "") spaceRunes.
Proof. unfold spaceRunes. cbn. repeat (apply Forall_cons_2; [done|]). apply Forall_nil_2. Qed.

Lemma spaceRunes_reversed_nonempty :
  Forall (fun p => p <> "") (map reverse_string spaceRunes).
Proof. unfold spaceRunes. cbn. repeat (apply Forall_cons_2; [done|]). apply Forall_nil_2. Qed.

(** The trimmed string is a part of the string, and has no white space at
    its ends. *)
Lemma strings_TrimSpace_part (s : string) :
  exists pre post, s = pre +:+ strings_TrimSpace s +:+ post.
Proof.
  unfold strings_TrimSpace, trimRightSpace.
  destruct (trimLeftLoop_suffix (String.length s) spaceRunes s spaceRunes_nonempty)
    as [pre Hpre].
  fold (trimLeftSpace s) in *. set (t := trimLeftSpace s) in *.
  destruct (trimLeftLoop_suffix (String.length t) (map reverse_string spaceRunes)
              (reverse_string t) spaceRunes_reversed_nonempty) as [post Hpost].
  exists pre, (reverse_string post).
  rewrite <- reverse_string_append, <- Hpost, reverse_string_involutive. exact Hpre.
Qed.

Lemma strings_TrimSpace_ends (s : string) :
  beginsWithSpace (strings_TrimSpace s) = false
  /\ endsWithSpace (strings_TrimSpace s) = false.
Proof.
  assert (Hright : forall t, endsWithSpace (trimRightSpace t) = false).
  { intros t. unfold endsWithSpace, trimRightSpace.
    rewrite reverse_string_involutive, trimLeftLoop_done; [done | | ].
    - apply spaceRunes_reversed_nonempty.
    - by rewrite reverse_string_length. }
  split; [|apply Hright].
  unfold beginsWithSpace, strings_TrimSpace.
  set (t := trimLeftSpace s).
  assert (Hleft : cutAnyPrefix spaceRunes t = None).
  { apply trimLeftLoop_done; [apply spaceRunes_nonempty | done]. }
  assert (Hpart : exists post, t = trimRightSpace t +:+ post).
  { unfold trimRightSpace.
    destruct (trimLeftLoop_suffix (String.length t) (map reverse_string spaceRunes)
                (reverse_string t) spaceRunes_reversed_nonempty) as [post Hpost].
    exists (reverse_string post).
    by rewrite <- reverse_string_append, <- Hpost, reverse_string_involutive. }
  destruct Hpart as [post Hpost]. rewrite Hpost in Hleft.
  by rewrite (cutAnyPrefix_more _ _ _ Hleft).
Qed.

Lemma firstDuration_part (candidates : list string) :
  firstDuration candidates = ""
  \/ exists val pre post,
       val ∈ candidates
       /\ normalizedDuration val = pre +:+ firstDuration candidates +:+ post
       /\ firstDuration candidates = strings_TrimSpace (normalizedDuration val).
Proof.
  induction candidates as [|val rest IH]; [by left|].
  cbn [firstDuration]. fold (normalizedDuration val).
  destruct (String.eqb (normalizedDuration val) ""); cbn [negb].
  - destruct IH as [Hnone|(v & pre & post & Hin & Hpart & Htrim)]; [by left|].
    right. exists v, pre, post. split; [by constructor|done].
  - right. destruct (strings_TrimSpace_part (normalizedDuration val)) as (pre & post & Hpart).
    exists val, pre, post. split; [by constructor|done].
Qed.

Section MoreMetadataProperties.
Context `{Externals}.

(** X7: no white space at the ends.  Whatever the fields of the record hold,
    the camera name, the creation software and the media duration neither
    begin nor end with white space (a code point of [unicode.IsSpace]). *)
Theorem descriptions_trimmed (meta : ExifToolMetadata) :
  (beginsWithSpace (GetFullCameraName meta) = false
   /\ endsWithSpace (GetFullCameraName meta) = false)
  /\ (beginsWithSpace (GetFullCreationSoftware meta) = false
      /\ endsWithSpace (GetFullCreationSoftware meta) = false)
  /\ (beginsWithSpace (GetMediaDuration meta) = false
      /\ endsWithSpace (GetMediaDuration meta) = false).
Proof.
  split_and!; try apply strings_TrimSpace_ends.
  all: unfold GetMediaDuration.
  all: destruct (firstDuration_part
                   [Get meta "Duration"; Get meta "MediaDuration"; Get meta "TrackDuration"])
         as [->|(val & _ & _ & _ & _ & ->)]; [done|apply strings_TrimSpace_ends].
Qed.

(** X8: the media duration holds no space.  Whatever the three duration
    fields hold, no space character (U+0020) is left in the result, which is
    empty or a part of one of the fields as it is without "(approx)" and
    without its spaces. *)
Theorem GetMediaDuration_no_space (meta : ExifToolMetadata) :
  ~ In " "%char (list_ascii_of_string (GetMediaDuration meta))
  /\ (GetMediaDuration meta = ""
      \/ exists val pre post,
           val ∈ [Get meta "Duration"; Get meta "MediaDuration"; Get meta "TrackDuration"]
           /\ normalizedDuration val = pre +:+ GetMediaDuration meta +:+ post).
Proof.
  unfold GetMediaDuration.
  destruct (firstDuration_part
              [Get meta "Duration"; Get meta "MediaDuration"; Get meta "TrackDuration"])
    as [Hnone|(val & pre & post & Hin & Hpart & _)].
  - rewrite Hnone. split; [cbn; tauto | by left].
  - split; [|right; by exists val, pre, post].
    intros Hspace.
    apply (replace_space_no_space 0 (strings_ReplaceAll val "(approx)" "")).
    change (replaceFrom 0 (strings_ReplaceAll val "(approx)" "") " " "")
      with (normalizedDuration val).
    rewrite Hpart, !list_ascii_of_string_append.
    apply in_or_app. right. apply in_or_app. by left.
Qed.

(** X9: the creation software is put together as the camera name is.  On
    records whose CreatorTool and Software fields hold what the Make and
    Model fields of another record hold, [GetFullCreationSoftware] returns
    what [GetFullCameraName] returns on that record. *)
Theorem GetFullCreationSoftware_as_camera_name (meta camera : ExifToolMetadata) :
  Get meta "CreatorTool" = Get camera "Make" ->
  Get meta "Software" = Get camera "Model" ->
  GetFullCreationSoftware meta = GetFullCameraName camera.
Proof.
  intros Htool Hsoftware. unfold GetFullCreationSoftware, GetFullCameraName.
  rewrite Htool, Hsoftware. done.
Qed.

End MoreMetadataProperties.

(** ** The framing function as a split function *)

(** X10: [splitReadyToken] keeps to what [bufio.Scanner] asks of a split
    function, and loses no byte.  For a configuration with a ready token and
    a buffer whose length is an int: the advance is within the buffer; with
    no token returned the advance is zero and the error is nil; the only
    error is that of a missing final token, at the end of the input, with
    the whole buffer as the token and no advance; and a record that is
    returned without an error comes with an advance that is not zero, the
    buffer being the record, the ready token, and what the advance leaves. *)
Theorem splitReadyToken_contract (config : ExiftoolConfig) (data : list byte)
    (atEOF : bool) :
  configReady config -> len data <= maxInt ->
  let advance := (splitReadyToken config data atEOF).1.1 in
  let tok := (splitReadyToken config data atEOF).1.2 in
  let err := (splitReadyToken config data atEOF).2 in
  0 <= advance <= len data
  /\ (tok = None -> advance = 0 /\ err = None)
  /\ (err <> None ->
      err = Some noFinalToken /\ atEOF = true /\ advance = 0 /\ tok = Some data
      /\ data <> [])
  /\ (forall record, tok = Some record -> err = None ->
        0 < advance
        /\ data = record ++ readyToken config ++ drop (Z.to_nat advance) data).
Proof.
  intros Hready Hlen.
  destruct (splitReadyToken_first config data atEOF Hready Hlen)
    as [[Hfree ->]|(idx & [Hocc _] & Hfit & Hpos & ->)].
  - pose proof (len_nonneg data) as Hnonneg.
    destruct atEOF; cbn [andb]; [destruct (0 <? len data) eqn:Hsome|]; cbn.
    + split; [lia|]. split; [done|]. split; [|done].
      intros _. split_and!; try done. intros ->. by cbn in Hsome.
    + split; [lia|]. done.
    + split; [lia|]. done.
  - cbn. split; [unfold len; lia|]. split; [done|]. split; [done|].
    + intros record [= <-] _. split; [lia|].
      rewrite Nat2Z.id. unfold occurs_at in Hocc.
      rewrite <- Hocc at 1.
      by rewrite app_assoc, take_take_drop, take_drop.
Qed.

(** ** Close *)

Lemma writeCloseArgs_all (world : CloseWorld) (i : nat) (args : list string) :
  (forall j, (j < length args)%nat -> writeErr world (i + j) = None) ->
  writeCloseArgs world i args = ((fun v => v +:+ LF) <$> args, None).
Proof.
  revert i. induction args as [|v args IH]; intros i Hok; [done|].
  cbn [writeCloseArgs]. pose proof (Hok 0%nat) as Hfirst.
  rewrite Nat.add_0_r in Hfirst. rewrite Hfirst by (cbn; lia).
  rewrite IH; [done|]. intros j Hj.
  replace (S i + j)%nat with (i + S j)%nat by lia. apply Hok. cbn. lia.
Qed.

Lemma writeCloseArgs_fails (world : CloseWorld) (i k : nat) (args : list string)
    (e : error) :
  (k < length args)%nat -> writeErr world (i + k) = Some e ->
  (forall j, (j < k)%nat -> writeErr world (i + j) = None) ->
  writeCloseArgs world i args = ((fun v => v +:+ LF) <$> take k args, Some e).
Proof.
  revert i k. induction args as [|v args IH]; intros i k Hk Hfail Hok; [cbn in Hk; lia|].
  cbn [writeCloseArgs]. destruct k as [|k].
  - rewrite Nat.add_0_r in Hfail. by rewrite Hfail.
  - pose proof (Hok 0%nat) as Hfirst.
    rewrite Nat.add_0_r in Hfirst. rewrite Hfirst by lia.
    rewrite (IH (S i) k); [done| | |].
    + cbn in Hk. lia.
    + by replace (S i + k)%nat with (i + S k)%nat by lia.
    + intros j Hj. replace (S i + j)%nat with (i + S j)%nat by lia. apply Hok. lia.
Qed.

Lemma contains_longer (pre sub post : string) :
  pre <> "" -> pre +:+ sub +:+ post <> sub.
Proof.
  intros Hpre Heq. apply (f_equal String.length) in Heq.
  rewrite !length_append in Heq. destruct pre; [done|]. cbn in Heq. lia.
Qed.

Lemma wraps_nothing (msg pre post : string) (cause : error) :
  pre <> "" -> msg = pre +:+ Error cause +:+ post ->
  contains (Error (Errorf msg)) (Error cause)
  /\ errors_Is_chain (Errorf msg) cause = false.
Proof.
  intros Hpre ->. split; [by exists pre, post|].
  cbn. rewrite orb_false_r.
  destruct cause as [| |msg|msg cause|msg]; try done.
  cbn. apply String.eqb_neq. by apply contains_longer.
Qed.

(** X11: a write that fails ends [Close] before the pipes are closed.  When
    the write of the closing argument at position [k] fails and those before
    it do not, [Close] returns the error of that write as it is, has written
    the arguments before it, each as a line, and has closed neither the
    merged output nor the command channel. *)
Theorem Close_write_fails (config : ExiftoolConfig) (world : CloseWorld) (k : nat)
    (e : error) :
  (k < length (bufferCloseArgs config))%nat ->
  writeErr world k = Some e ->
  (forall j, (j < k)%nat -> writeErr world j = None) ->
  closeReturned (Close config world) = Some e
  /\ closeWritten (Close config world)
     = ((fun v => v +:+ LF) <$> take k (bufferCloseArgs config))
  /\ outCloseCalled (Close config world) = false
  /\ inCloseCalled (Close config world) = false.
Proof.
  intros Hk Hfail Hok. unfold Close.
  by rewrite (writeCloseArgs_fails world 0 k (bufferCloseArgs config) e Hk Hfail Hok).
Qed.

(** X12: when the closing arguments are written, [Close] closes both pipes
    and reports their errors as text.  It has written every closing argument
    as a line and has called [Close] on the merged output and on the command
    channel, also when the first of the two fails; it returns nil exactly
    when both succeed; and when one fails, the text of the error it returns
    holds the text of that failure, while the error wraps nothing:
    [errors.Is] does not find the failure in it. *)
Theorem Close_closes_pipes (config : ExiftoolConfig) (world : CloseWorld) :
  (forall j, (j < length (bufferCloseArgs config))%nat -> writeErr world j = None) ->
  closeWritten (Close config world) = ((fun v => v +:+ LF) <$> bufferCloseArgs config)
  /\ outCloseCalled (Close config world) = true
  /\ inCloseCalled (Close config world) = true
  /\ (closeReturned (Close config world) = None
      <-> closeOutErr world = None /\ closeInErr world = None)
  /\ (forall cause,
        closeOutErr world = Some cause \/ closeInErr world = Some cause ->
        exists e,
          closeReturned (Close config world) = Some e
          /\ contains (Error e) (Error cause)
          /\ errors_Is (Some e) cause = false).
Proof.
  intros Hok. unfold Close.
  rewrite (writeCloseArgs_all world 0 (bufferCloseArgs config) Hok).
  split_and!; try done.
  - destruct (closeOutErr world), (closeInErr world); cbn; split; try done;
      by intros [? ?].
  - intros cause Hcause.
    destruct (closeOutErr world) as [out|], (closeInErr world) as [inn|];
      [| | |by destruct Hcause]; cbn; eexists; (split; [reflexivity|]).
    + destruct Hcause as [[= ->]|[= ->]].
      * apply (wraps_nothing _
                 ("error while closing exiftool: [" +:+ "error while closing stdMergedOut: ")
                 (" " +:+ "error while closing stdin: " +:+ Error inn +:+ "]"));
          [by vm_compute|]. by rewrite !append_assoc.
      * apply (wraps_nothing _
                 ("error while closing exiftool: [" +:+ "error while closing stdMergedOut: "
                  +:+ Error out +:+ " " +:+ "error while closing stdin: ")
                 "]"); [|by rewrite !append_assoc].
        intros Hempty. apply (f_equal String.length) in Hempty.
        rewrite length_append in Hempty. cbn in Hempty. lia.
    + destruct Hcause as [[= ->]|?]; [|done].
      apply (wraps_nothing _
               ("error while closing exiftool: [" +:+ "error while closing stdMergedOut: ")
               "]"); [by vm_compute|]. by rewrite !append_assoc.
    + destruct Hcause as [?|[= ->]]; [done|].
      apply (wraps_nothing _
               ("error while closing exiftool: [" +:+ "error while closing stdin: ")
               "]"); [by vm_compute|]. by rewrite !append_assoc.
Qed.

(** ** Open *)

Lemma Open_configReady (setup : ExiftoolSetup) (world : OpenWorld) :
  executable (setupConfig setup) = "" \/ configReady (setupConfig setup) ->
  configReady (openConfig (Open setup world)).
Proof.
  intros Hsetup.
  assert (Hconfig : configReady
    (if String.eqb (executable (setupConfig setup)) "" then UseDefaults (GOOS world)
     else setupConfig setup)).
  { destruct (String.eqb_spec (executable (setupConfig setup)) "") as [Hempty|Hset].
    - apply UseDefaults_readyToken.
    - by destruct Hsetup. }
  unfold Open. by destruct (stdinPipeErr world), (startErr world).
Qed.

Lemma errors_Is_chain_refl (e : error) : errors_Is_chain e e = true.
Proof. destruct e; cbn -[error_eqb]; by rewrite error_eqb_refl. Qed.

(** X13: the configuration that [Open] leaves.  Whether it succeeds or fails,
    [Open] leaves a configuration whose executable is not empty: the
    configuration of the caller when that names an executable, and otherwise
    the defaults of the platform as a whole, whatever other fields the
    caller had set; and the command line is that executable with the
    opening arguments of that configuration. *)
Theorem Open_config (setup : ExiftoolSetup) (world : OpenWorld) :
  executable (openConfig (Open setup world)) <> ""
  /\ openConfig (Open setup world)
     = (if String.eqb (executable (setupConfig setup)) "" then UseDefaults (GOOS world)
        else setupConfig setup)
  /\ commandLine (Open setup world)
     = executable (openConfig (Open setup world))
       :: bufferOpenArgs (openConfig (Open setup world)).
Proof.
  assert (Hconfig :
    openConfig (Open setup world)
    = (if String.eqb (executable (setupConfig setup)) "" then UseDefaults (GOOS world)
       else setupConfig setup)
    /\ commandLine (Open setup world)
       = executable (openConfig (Open setup world))
         :: bufferOpenArgs (openConfig (Open setup world))).
  { unfold Open. by destruct (stdinPipeErr world), (startErr world). }
  destruct Hconfig as [Hconfig Hcommand]. split; [|done].
  rewrite Hconfig.
  by destruct (String.eqb_spec (executable (setupConfig setup)) "").
Qed.

(** X14: the errors of [Open] wrap their causes.  When [Open] returns an
    error, the pipe of the command channel or the start of the subprocess
    has failed, and [errors.Is] finds that failure in the error; after a
    failure of the pipe no scanner is set, and after a failure of the start
    the scanner is set all the same. *)
Theorem Open_error (setup : ExiftoolSetup) (world : OpenWorld) (e : error) :
  openReturned (Open setup world) = Some e ->
  exists cause,
    errors_Is (Some e) cause = true
    /\ contains (Error e) (Error cause)
    /\ ((stdinPipeErr world = Some cause /\ openScanner (Open setup world) = None)
        \/ (stdinPipeErr world = None /\ startErr world = Some cause
            /\ openScanner (Open setup world) <> None)).
Proof.
  unfold Open.
  destruct (stdinPipeErr world) as [cause|]; [|destruct (startErr world) as [cause|]];
    cbn [openReturned openScanner]; [| |done].
  - intros [= <-]. exists cause. split_and!.
    + cbn. by rewrite errors_Is_chain_refl, orb_true_r.
    + exists "error when piping stdin: ", "". by rewrite append_empty_r.
    + by left.
  - intros [= <-]. exists cause. split_and!.
    + cbn. by rewrite errors_Is_chain_refl, orb_true_r.
    + exists "error when executing commande: ", "". by rewrite append_empty_r.
    + by right.
Qed.

Section OpenProperties.
Context `{Externals}.

(** X15: the first request of a session that [Open] has set up.  When the
    pipe and the start of the subprocess succeed, with the defaults or a
    configuration that holds a ready token, and the ready token first occurs
    at offset [idx] of the merged output, within the largest token size of
    the scanner (64 KiB, or the size that the caller has set), [Open]
    returns nil and [ReadMetadata] on the session returns what [Parse] makes
    of the [idx] bytes before the token. *)
Theorem Open_then_ReadMetadata (setup : ExiftoolSetup) (world : OpenWorld)
    (file : string) (idx : nat) :
  stdinPipeErr world = None -> startErr world = None ->
  executable (setupConfig setup) = "" \/ configReady (setupConfig setup) ->
  (bufferSet setup = true ->
   Z.of_nat (bufferCap setup) <= maxInt /\ bufferMaxSize setup <= 2 ^ 62) ->
  lively (mergedOut world) ->
  first_occurrence (concat (chunks (mergedOut world)))
    (readyToken (openConfig (Open setup world))) idx ->
  Z.of_nat (idx + length (readyToken (openConfig (Open setup world))))
  <= (if bufferSet setup then bufferMaxSize setup else MaxScanTokenSize) ->
  json_Unmarshal (bytes_of "{}") <> inl [] ->
  openReturned (Open setup world) = None
  /\ exists scanner,
       openScanner (Open setup world) = Some scanner
       /\ ((ReadMetadata (opened (Open setup world) scanner) file).1.2,
           (ReadMetadata (opened (Open setup world) scanner) file).2)
          = Parse (requested file) (take idx (concat (chunks (mergedOut world)))).
Proof.
  intros Hpipe Hstart Hsetup Hbuffer Hlive Hfirst Hsize Hjson.
  pose proof (Open_configReady setup world Hsetup) as Hready.
  revert Hfirst Hsize Hready. unfold opened, Open. rewrite Hpipe, Hstart.
  cbn [openConfig openScanner openReturned].
  set (conf := if String.eqb (executable (setupConfig setup)) "" then _ else _).
  intros Hfirst Hsize Hready. split; [done|].
  eexists. split; [reflexivity|].
  match goal with |- context [ReadMetadata ?session file] => set (et := session) end.
  assert (Hfuture : future (scanMergedOut (io et)) = concat (chunks (mergedOut world))).
  { subst et. cbn [io scanMergedOut]. by destruct (bufferSet setup). }
  assert (Hwait : awaiting conf (scanMergedOut (io et)) idx).
  { unfold awaiting. rewrite Hfuture. subst et. cbn [io scanMergedOut].
    unfold inBounds. destruct (bufferSet setup) eqn:Hset; cbn.
    - destruct (Hbuffer eq_refl). split_and!; try done; lia.
    - split_and!; try done. }
  destruct (ReadMetadata_awaiting et file idx Hready Hwait Hjson) as (-> & _).
  by rewrite Hfuture.
Qed.

End OpenProperties.

(** ** The rest at work *)

Section SessionRuns.
Import Sample Cases Streams Worlds.
#[local] Existing Instance externals.

(** The creation software of a record that is labelled as a camera is. *)
Lemma GetFullCreationSoftware_as_camera_name_witness :
  GetFullCreationSoftware relabelled = "Canon (EOS 5D)".
Proof.
  etrans.
  - apply (GetFullCreationSoftware_as_camera_name relabelled canonEOS); by vm_compute.
  - by vm_compute.
Defined.

(** The framing function on a record followed by two ready tokens: the
    buffer is the record, the token and what is left. *)
Lemma splitReadyToken_contract_witness :
  0 < (splitReadyToken (UseDefaults "linux") twoTokens false).1.1
  /\ twoTokens
     = bytes_of "[]" ++ readyToken (UseDefaults "linux")
       ++ drop (Z.to_nat (splitReadyToken (UseDefaults "linux") twoTokens false).1.1)
            twoTokens.
Proof.
  assert (Hlen : len twoTokens <= maxInt) by (by vm_compute).
  pose proof (splitReadyToken_contract (UseDefaults "linux") twoTokens false
                (UseDefaults_readyToken "linux") Hlen) as Hcontract.
  cbv zeta in Hcontract. destruct Hcontract as (_ & _ & _ & Hrecord).
  apply Hrecord; by vm_compute.
Defined.

(** [Close] when the subprocess has gone. *)
Lemma Close_write_fails_witness :
  closeReturned (Close (UseDefaults "linux") brokenPipe) = Some closedPipe
  /\ closeWritten (Close (UseDefaults "linux") brokenPipe) = ["-stay_open" +:+ LF]
  /\ outCloseCalled (Close (UseDefaults "linux") brokenPipe) = false
  /\ inCloseCalled (Close (UseDefaults "linux") brokenPipe) = false.
Proof.
  assert (Hk : (1 < length (bufferCloseArgs (UseDefaults "linux")))%nat) by (cbn; lia).
  assert (Hok : forall j, (j < 1)%nat -> writeErr brokenPipe j = None).
  { intros [|j] Hj; [done|lia]. }
  exact (Close_write_fails (UseDefaults "linux") brokenPipe 1 closedPipe Hk eq_refl Hok).
Defined.

(** [Close] when the command channel was closed before. *)
Lemma Close_closes_pipes_witness :
  outCloseCalled (Close (UseDefaults "linux") closedTwice) = true
  /\ exists e,
       closeReturned (Close (UseDefaults "linux") closedTwice) = Some e
       /\ contains (Error e) (Error alreadyClosed)
       /\ errors_Is (Some e) alreadyClosed = false.
Proof.
  assert (Hok : forall j, (j < length (bufferCloseArgs (UseDefaults "linux")))%nat ->
                          writeErr closedTwice j = None) by done.
  destruct (Close_closes_pipes (UseDefaults "linux") closedTwice Hok)
    as (_ & Hout & _ & _ & Hcause).
  split; [exact Hout|]. apply Hcause. by right.
Defined.

(** [Open] on a platform without exiftool. *)
Lemma Open_error_witness :
  exists cause,
    errors_Is (openReturned (Open plainSetup missingTool)) cause = true
    /\ startErr missingTool = Some cause.
Proof.
  destruct (Open_error plainSetup missingTool _ eq_refl)
    as (cause & Hwraps & _ & [[Hpipe _]|(_ & Hstart & _)]); [done|].
  exists cause. split; [exact Hwraps|exact Hstart].
Defined.

(** [Open] and the first request on a platform where exiftool answers. *)
Lemma Open_then_ReadMetadata_witness :
  openReturned (Open plainSetup answeringWorld) = None
  /\ exists scanner,
       openScanner (Open plainSetup answeringWorld) = Some scanner
       /\ Get (ReadMetadata (opened (Open plainSetup answeringWorld) scanner) "x.jpg").1.2
            "Make" = "Canon".
Proof.
  assert (Hlive : lively (mergedOut answeringWorld)) by closed_lively.
  assert (Hfirst :
    first_occurrence (concat (chunks (mergedOut answeringWorld)))
      (readyToken (openConfig (Open plainSetup answeringWorld))) 40).
  { apply bytes_Index_first_occurrence. by vm_compute. }
  assert (Hsize :
    Z.of_nat (40 + length (readyToken (openConfig (Open plainSetup answeringWorld))))
    <= (if bufferSet plainSetup then bufferMaxSize plainSetup else MaxScanTokenSize))
    by (by vm_compute).
  assert (Hjson : json_Unmarshal (bytes_of "{}") <> inl []) by (by vm_compute).
  assert (Hbuffer : bufferSet plainSetup = true ->
                    Z.of_nat (bufferCap plainSetup) <= maxInt
                    /\ bufferMaxSize plainSetup <= 2 ^ 62) by done.
  destruct (Open_then_ReadMetadata plainSetup answeringWorld "x.jpg" 40
              eq_refl eq_refl (or_introl eq_refl) Hbuffer Hlive Hfirst Hsize Hjson)
    as (Hreturned & scanner & Hscanner & Hrecord).
  split; [exact Hreturned|]. exists scanner. split; [exact Hscanner|].
  revert Hrecord.
  generalize (ReadMetadata (opened (Open plainSetup answeringWorld) scanner) "x.jpg").
  intros [[et meta] err]. cbn [fst snd]. intros Hrecord.
  pose proof (f_equal fst Hrecord) as Hmeta. cbn [fst] in Hmeta. subst meta.
  by vm_compute.
Defined.

End SessionRuns.
